(** * notion2md: the Notion-to-Markdown converter, embedded and verified

    A shallow embedding of [notion_to_md.py] (class [NotionToMarkdown]):
    the rich-text renderer, the block renderer, the page extractor and the
    crawl scheduler, followed by the properties of the specification that
    hold on this code and the inputs on which others fail.

    The payload is the untyped tree that [json.loads] returns; the
    operations the code performs on it ([in], [.get], indexing, iteration,
    f-string formatting, [str.join]) are modelled with the exceptions they
    raise, so that "does not raise" is a statement about the code. *)

From stdpp Require Import base option list gmap strings pretty.
From Stdlib Require Import ZArith Lia Ascii.

#[local] Set Warnings "-register-all,-clear-no-such-hyp".

Local Open Scope string_scope.
Local Open Scope list_scope.

(** ** Python values *)

(** What [json.loads] produces.  Numbers are integers here: the converter
    never computes with a payload number.  A [VDict] lists its entries in
    insertion order, as a Python dict iterates them; keys are distinct. *)
Inductive value : Type :=
| VNone
| VBool (b : bool)
| VInt (n : Z)
| VStr (s : string)
| VList (items : list value)
| VDict (entries : list (string * value)).

Abbreviation dict := (list (string * value)).

Inductive exn : Type :=
| TypeError
| AttributeError
| KeyError
| IndexError
| RecursionError.

Inductive outcome (A : Type) : Type :=
| Ok (a : A)
| Raise (e : exn).
Arguments Ok {A} a.
Arguments Raise {A} e.

Definition obind {A B} (m : outcome A) (k : A → outcome B) : outcome B :=
  match m with
  | Ok a => k a
  | Raise e => Raise e
  end.

Definition omap {A B} (f : A → B) (m : outcome A) : outcome B :=
  obind m (λ a, Ok (f a)).

Notation "'let?' x := m 'in' k" := (obind m (λ x, k))
  (at level 10, x name, m at level 100, k at level 200,
   format "'[v' 'let?'  x  :=  m  'in' '/' k ']'").

Module Py.

(** [bool(v)] *)
Definition truthy (v : value) : bool :=
  match v with
  | VNone => false
  | VBool b => b
  | VInt n => negb (n =? 0)%Z
  | VStr s => negb (String.eqb s "")
  | VList l => match l with [] => false | _ :: _ => true end
  | VDict d => match d with [] => false | _ :: _ => true end
  end.

(** [v == 'lit'] for a string literal: only that string is equal to it. *)
Definition is_str (v : value) (lit : string) : bool :=
  match v with
  | VStr s => String.eqb s lit
  | _ => false
  end.

(** [d[k]] on the entries of a dict, [None] standing for a missing key. *)
Fixpoint lookup (d : dict) (k : string) : option value :=
  match d with
  | [] => None
  | (k', v) :: d' => if String.eqb k' k then Some v else lookup d' k
  end.

Definition has_key (d : dict) (k : string) : bool :=
  match lookup d k with Some _ => true | None => false end.

(** [sub in s] on strings. *)
Fixpoint is_substring (sub s : string) : bool :=
  if String.prefix sub s then true
  else match s with
       | EmptyString => false
       | String _ s' => is_substring sub s'
       end.

(** [d.get(k, default)] on the entries of a dict. *)
Definition field (d : dict) (k : string) (default : value) : value :=
  match lookup d k with Some v => v | None => default end.

(** ['lit' in c] *)
Definition contains (lit : string) (c : value) : outcome bool :=
  match c with
  | VDict d => Ok (has_key d lit)
  | VList l => Ok (existsb (λ x, is_str x lit) l)
  | VStr s => Ok (is_substring lit s)
  | _ => Raise TypeError
  end.

(** [c['lit']] *)
Definition getitem (c : value) (lit : string) : outcome value :=
  match c with
  | VDict d => match lookup d lit with
               | Some v => Ok v
               | None => Raise KeyError
               end
  | _ => Raise TypeError
  end.

(** [obj.get('lit', default)]; only a dict has the method. *)
Definition get (obj : value) (lit : string) (default : value) : outcome value :=
  match obj with
  | VDict d => Ok (field d lit default)
  | _ => Raise AttributeError
  end.

(** [d.get(k, default)] for a dict [d] and any [k]: a list or dict is
    unhashable, and no other non-string equals a string key. *)
Definition dict_get (d : dict) (k : value) (default : value) : outcome value :=
  match k with
  | VStr s => Ok (field d s default)
  | VList _ | VDict _ => Raise TypeError
  | _ => Ok default
  end.

(** The one-character strings of [s], which a [for] loop over a string
    visits (a byte each here, a code point each in Python; every item is
    a string either way). *)
Fixpoint chars (s : string) : list value :=
  match s with
  | EmptyString => []
  | String c s' => VStr (String c "") :: chars s'
  end.

(** The items a [for] loop over [v] visits. *)
Definition iter (v : value) : outcome (list value) :=
  match v with
  | VList l => Ok l
  | VDict d => Ok (map (λ kv, VStr kv.1) d)
  | VStr s => Ok (chars s)
  | _ => Raise TypeError
  end.

(** ['sep'.join(parts)]: every part must be a string. *)
Fixpoint strings_of (parts : list value) : outcome (list string) :=
  match parts with
  | [] => Ok []
  | VStr s :: rest => let? ss := strings_of rest in Ok (s :: ss)
  | _ :: _ => Raise TypeError
  end.

Definition join (sep : string) (parts : list value) : outcome string :=
  let? ss := strings_of parts in Ok (String.concat sep ss).

(** [s.replace(c, '')] for a one-character [c]. *)
Fixpoint remove_char (c : Ascii.ascii) (s : string) : string :=
  match s with
  | EmptyString => EmptyString
  | String a s' =>
      if Ascii.eqb a c then remove_char c s' else String a (remove_char c s')
  end.

End Py.

(** [for x in items: acc += f(x)], stopping at the first exception. *)
Fixpoint collect {A B} (f : A → outcome (list B)) (items : list A)
  : outcome (list B) :=
  match items with
  | [] => Ok []
  | x :: rest =>
      let? ys := f x in
      let? zs := collect f rest in
      Ok (ys ++ zs)
  end.

(** The newline character of the f-strings. *)
Definition nl : string := String "010"%char "".

(** ** The converter instance and its effects *)

(** An entry of [self.page_data]. *)
Record page_info := {
  info_title : string;
  info_parent_id : value;
}.

(** The dict [extract_page_content] returns. *)
Record page_content := {
  title : string;
  content : string;
  subpages : list string;
}.

(** The instance [self], with the trace of what it did to the outside
    world: [downloads] has the URL of every [download_page] call, oldest
    first, and [files] every file written, with its text. *)
Record converter := {
  output_dir : string;
  single_mode : bool;
  visited_pages : gset string;
  page_data : list (string * page_info);
  downloads : list string;
  files : list (string * string);
}.

(** [NotionToMarkdown(output_dir, single_mode)] *)
Definition init (dir : string) (single : bool) : converter :=
  {| output_dir := dir; single_mode := single; visited_pages := ∅;
     page_data := []; downloads := []; files := [] |}.

(** [d[k] = v] on a dict that keeps insertion order: an existing key keeps
    its place. *)
Fixpoint dict_set {V} (d : list (string * V)) (k : string) (v : V)
  : list (string * V) :=
  match d with
  | [] => [(k, v)]
  | (k', v') :: d' =>
      if String.eqb k' k then (k', v) :: d' else (k', v') :: dict_set d' k v
  end.

Definition mark_visited (url : string) (st : converter) : converter :=
  {| output_dir := output_dir st; single_mode := single_mode st;
     visited_pages := {[url]} ∪ visited_pages st;
     page_data := page_data st; downloads := downloads st;
     files := files st |}.

Definition register_page (page_id : string) (info : page_info)
    (st : converter) : converter :=
  {| output_dir := output_dir st; single_mode := single_mode st;
     visited_pages := visited_pages st;
     page_data := dict_set (page_data st) page_id info;
     downloads := downloads st; files := files st |}.

Definition log_download (url : string) (st : converter) : converter :=
  {| output_dir := output_dir st; single_mode := single_mode st;
     visited_pages := visited_pages st; page_data := page_data st;
     downloads := downloads st ++ [url]; files := files st |}.

Definition log_file (path text : string) (st : converter) : converter :=
  {| output_dir := output_dir st; single_mode := single_mode st;
     visited_pages := visited_pages st; page_data := page_data st;
     downloads := downloads st; files := files st ++ [(path, text)] |}.

(** A method of the instance: it returns or raises, and leaves the
    instance in a new state either way. *)
Definition M (A : Type) : Type := converter → outcome A * converter.

Definition sret {A} (a : A) : M A := λ st, (Ok a, st).

Definition lift {A} (m : outcome A) : M A := λ st, (m, st).

Definition sbind {A B} (m : M A) (k : A → M B) : M B :=
  λ st, match m st with
        | (Ok a, st') => k a st'
        | (Raise e, st') => (Raise e, st')
        end.

Definition read {A} (f : converter → A) : M A := λ st, (Ok (f st), st).

Definition update (f : converter → converter) : M unit :=
  λ st, (Ok tt, f st).

Notation "'let*' x := m 'in' k" := (sbind m (λ x, k))
  (at level 10, x name, m at level 100, k at level 200,
   format "'[v' 'let*'  x  :=  m  'in' '/' k ']'").

(** [for x in items: acc += f(x)] for a method [f]. *)
Fixpoint for_each {A B} (f : A → M (list B)) (items : list A) : M (list B) :=
  match items with
  | [] => sret []
  | x :: rest =>
      let* ys := f x in
      let* zs := for_each f rest in
      sret (ys ++ zs)
  end.

(** ** Collaborators

    Library calls and I/O the converter relies on, taken as parameters:
    [urllib.parse.quote(s, '')] and [urlparse] on strings, [slugify],
    [str.lower], [repr] of a string, [os.path.join]; and the two I/O
    methods of the class, [download_page] ([requests.get] in a retry loop:
    one call is one fetch, [None] its failure result) and
    [extract_json_data] (the payload BeautifulSoup finds in the document,
    or [None]).  [download_page] is given the URLs requested so far, so a
    server may answer differently over time.  Logging, [time.sleep] and
    the [os.makedirs] of a page directory leave no trace in the model. *)
Record externals := {
  quote : string → string;
  url_scheme : string → string;
  url_netloc : string → string;
  slugify : string → string;
  str_lower : string → string;
  str_repr : string → string;
  path_join : string → string → string;
  download_page : list string → string → option string;
  extract_json_data : string → value;
}.

Section Converter.

Context (ext : externals).

(** ** f-string formatting *)

(** [repr(v)] *)
Fixpoint py_repr (v : value) : string :=
  match v with
  | VNone => "None"
  | VBool true => "True"
  | VBool false => "False"
  | VInt n => pretty n
  | VStr s => str_repr ext s
  | VList l => "[" +:+ String.concat ", " (map py_repr l) +:+ "]"
  | VDict d =>
      "{" +:+ String.concat ", "
                (map (λ kv, let '(k, x) := kv in
                            str_repr ext k +:+ ": " +:+ py_repr x) d)
          +:+ "}"
  end.

(** [f"{v}"], that is [str(v)] *)
Definition py_str (v : value) : string :=
  match v with
  | VStr s => s
  | _ => py_repr v
  end.

(** [quote(v, '')]: a string is encoded, anything else that JSON can
    hold is rejected by [quote_from_bytes]. *)
Definition py_quote (v : value) : outcome string :=
  match v with
  | VStr s => Ok (quote ext s)
  | _ => Raise TypeError
  end.

(** ** RichTextRenderer *)

(** One item of [extract_text_from_property]'s loop. *)
Definition plain_item (item : value) : list value :=
  match item with
  | VList (first :: _) => [first]
  | VList [] => []
  | VStr s => [VStr s]
  | _ => []
  end.

Definition extract_text_from_property (property_value : value)
  : outcome string :=
  if negb (Py.truthy property_value) then Ok ""
  else
    let? items := Py.iter property_value in
    Py.join "" (concat (map plain_item items)).

(** One step of the loop [for fmt in formats] of [extract_formatted_text]:
    the new value of [text]. *)
Definition apply_format (text fmt : value) : outcome value :=
  if Py.is_str fmt "b" then Ok (VStr ("**" +:+ py_str text +:+ "**"))
  else if Py.is_str fmt "i" then Ok (VStr ("*" +:+ py_str text +:+ "*"))
  else if Py.is_str fmt "s" then Ok (VStr ("~~" +:+ py_str text +:+ "~~"))
  else if Py.is_str fmt "c" then Ok (VStr ("`" +:+ py_str text +:+ "`"))
  else
    match fmt with
    | VList [] => Raise IndexError
    | VList (tag :: rest) =>
        if Py.is_str tag "a" then
          match rest with
          | target :: _ =>
              Ok (VStr ("[" +:+ py_str text +:+ "](" +:+ py_str target +:+ ")"))
          | [] => Ok text
          end
        else Ok text
    | _ => Ok text
    end.

Fixpoint apply_formats (text : value) (formats : list value)
  : outcome value :=
  match formats with
  | [] => Ok text
  | fmt :: rest =>
      let? text' := apply_format text fmt in
      apply_formats text' rest
  end.

(** One item of [extract_formatted_text]'s loop: what it appends. *)
Definition formatted_item (item : value) : outcome (list value) :=
  match item with
  | VList (text :: more) =>
      match more with
      | VList formats :: _ =>
          let? text' := apply_formats text formats in Ok [text']
      | _ => Ok [text]
      end
  | _ => Ok []
  end.

Definition extract_formatted_text (property_value : value)
  : outcome string :=
  if negb (Py.truthy property_value) then Ok ""
  else
    let? items := Py.iter property_value in
    let? result := collect formatted_item items in
    Py.join "" result.

(** ** BlockRenderer *)

(** [while v and type(v) == list: v = v[0] if len(v) > 0 else None] *)
Fixpoint unwrap (v : value) : value :=
  match v with
  | VList (first :: _) => unwrap first
  | _ => v
  end.

(** [if k in blocks: ... blocks[k] ...]: the entry when there is one. *)
Definition find_block (blocks : dict) (k : value)
  : outcome (option (string * value)) :=
  match k with
  | VStr id => Ok (match Py.lookup blocks id with
                   | Some block_data => Some (id, block_data)
                   | None => None
                   end)
  | VList _ | VDict _ => Raise TypeError
  | _ => Ok None
  end.

(** [block_data.get('value', {}).get('value', {})] *)
Definition inner_value (block_data : value) : outcome value :=
  let? v := Py.get block_data "value" (VDict []) in
  Py.get v "value" (VDict []).

(** [self.extract_formatted_text(block_properties.get('title', []))] *)
Definition formatted_title (block_properties : value) : outcome string :=
  let? t := Py.get block_properties "title" (VList []) in
  extract_formatted_text t.

(** *** Tables *)

(** The inner loop over [row_content_ids]: what one cell id appends to
    [row_cells]. *)
Definition cell_text (blocks : dict) (cell_id : value)
  : outcome (list string) :=
  let? found := find_block blocks cell_id in
  match found with
  | Some (_, cell_data) =>
      let? cell_block := inner_value cell_data in
      let? props := Py.get cell_block "properties" (VDict []) in
      let? text := formatted_title props in
      Ok [text]
  | None => Ok []
  end.

(** The outer loop over [block_content_ids]: the [row_cells] of one child
    id, nothing for a dangling id. *)
Definition row_cells (blocks : dict) (child_id : value)
  : outcome (list (list string)) :=
  let? found := find_block blocks child_id in
  match found with
  | Some (_, row_data) =>
      let? row_block := inner_value row_data in
      let? row_content_ids := Py.get row_block "content" (VList []) in
      let? cell_ids := Py.iter row_content_ids in
      let? cells := collect (cell_text blocks) cell_ids in
      Ok [cells]
  | None => Ok []
  end.

(** [if not header_row and row_cells: header_row = row_cells
     else: table_rows.append(row_cells)] on the pair
    [(header_row, table_rows)]. *)
Definition add_row (acc : list string * list (list string))
    (cells : list string) : list string * list (list string) :=
  let '(header_row, table_rows) := acc in
  match header_row, cells with
  | [], _ :: _ => (cells, table_rows)
  | _, _ => (header_row, table_rows ++ [cells])
  end.

(** [while len(row) < len(header_row): row.append('')] *)
Definition pad_row (width : nat) (row : list string) : list string :=
  row ++ replicate (width - length row) "".

(** The lines of the table, when there is a header. *)
Definition table_md (header_row : list string)
    (table_rows : list (list string)) : list string :=
  String.concat " | " header_row
  :: String.concat " | " (replicate (length header_row) "---")
  :: map (λ row, String.concat " | " (pad_row (length header_row) row))
         table_rows.

Definition render_table (blocks : dict) (block_content_ids : value)
  : outcome (list string) :=
  let? child_ids := Py.iter block_content_ids in
  let? rows := collect (row_cells blocks) child_ids in
  let '(header_row, table_rows) := fold_left add_row rows ([], []) in
  match header_row with
  | [] => Ok []
  | _ :: _ => Ok [String.concat nl (table_md header_row table_rows)]
  end.

(** *** The other leaf blocks *)

Definition render_code (block_properties : value) : outcome (list string) :=
  let? t := Py.get block_properties "title" (VList []) in
  let? code := extract_text_from_property t in
  let? l := Py.get block_properties "language" (VList []) in
  let? language := extract_text_from_property l in
  let language := if String.eqb language "" then "" else str_lower ext language in
  Ok ["```" +:+ language +:+ nl +:+ code +:+ nl +:+ "```"].

Definition render_image (root_page_id : value) (blocks : dict)
    (block_id : string) (block_properties : value) : outcome (list string) :=
  let? source := Py.get block_properties "source" (VList []) in
  let? caption := Py.get block_properties "caption" (VList []) in
  let source := unwrap source in
  let caption := unwrap caption in
  let? root_entry := Py.dict_get blocks root_page_id (VDict []) in
  let? space_id := Py.get root_entry "spaceId" (VStr "") in
  let? quoted := py_quote source in
  let source :=
    "https://mask.notion.site/image/" +:+ quoted +:+ "?table=block&id="
    +:+ block_id +:+ "&spaceId=" +:+ py_str space_id
    +:+ "&width=1420&userId=&cache=v2" in
  if Py.truthy (VStr source) then
    Ok (("![" +:+ py_str caption +:+ "](" +:+ source +:+ ")")
        :: (if Py.truthy caption then ["*" +:+ py_str caption +:+ "*"]
            else []))
  else Ok [].

Definition render_bookmark (block block_properties : value)
  : outcome (list string) :=
  let? link := Py.get block "link" (VStr "") in
  let? title := formatted_title block_properties in
  let? d := Py.get block_properties "description" (VList []) in
  let? description := extract_formatted_text d in
  if Py.truthy link then
    Ok (("[" +:+ (if String.eqb title "" then py_str link else title)
         +:+ "](" +:+ py_str link +:+ ")")
        :: (if String.eqb description "" then []
            else ["> " +:+ description]))
  else Ok [].

(** [f"{parsed_url.scheme}://{parsed_url.netloc}"] followed by
    [f"{domain}/{title}-{id.replace('-', '')}"] *)
Definition subpage_url_of (url page_title page_id : string) : string :=
  let domain := url_scheme ext url +:+ "://" +:+ url_netloc ext url in
  domain +:+ "/" +:+ page_title +:+ "-" +:+ Py.remove_char "-"%char page_id.

(** *** PageExtractor: locating the root *)

(** The fallback loop over [blocks.items()]: the id of the first entry
    with [block_data['value'].get('type') == 'page']. *)
Fixpoint find_page_block (entries : dict) : outcome (option string) :=
  match entries with
  | [] => Ok None
  | (block_id, block_data) :: rest =>
      let? has_value := Py.contains "value" block_data in
      if has_value then
        let? v := Py.getitem block_data "value" in
        let? ty := Py.get v "type" VNone in
        if Py.is_str ty "page" then Ok (Some block_id)
        else find_page_block rest
      else find_page_block rest
  end.

(** [root_page_id] after the lookup and the fallback scan. *)
Definition locate_root (data : value) (blocks : dict) : outcome value :=
  let? root_page_id := Py.get data "pageId" VNone in
  let? dangling :=
    if negb (Py.truthy root_page_id) then Ok true
    else let? found := find_block blocks root_page_id in
         Ok (match found with Some _ => false | None => true end) in
  if dangling then
    let? scanned := find_page_block blocks in
    Ok (match scanned with
        | Some block_id => VStr block_id
        | None => root_page_id
        end)
  else Ok root_page_id.

(** What the lines from [data.get('pageId')] on raise when
    [record_map['block']] is not a dict: [in] rejects a non-container, or
    a non-string on the left of a string, and otherwise the first of
    [blocks.items()] and [blocks.get] is an AttributeError. *)
Definition no_block_table (data blocks : value) : outcome (option page_content) :=
  let? root_page_id := Py.get data "pageId" VNone in
  if negb (Py.truthy root_page_id) then Raise AttributeError
  else match blocks, root_page_id with
       | VList _, _ => Raise AttributeError
       | VStr _, VStr _ => Raise AttributeError
       | _, _ => Raise TypeError
       end.

(** ** The three mutually recursive methods

    [fuel] bounds the depth of nested calls, as the interpreter's
    recursion limit does: a call with none left raises RecursionError. *)

Fixpoint process_block (fuel : nat) (url : string) (root_page_id : value)
    (blocks : dict) (block_id : string) (block_data : value)
    {struct fuel} : M (list string) :=
  match fuel with
  | 0 => lift (Raise RecursionError)
  | S fuel' =>
    let* has_value := lift (Py.contains "value" block_data) in
    if negb has_value then sret []
    else
    let* block := lift (let? v := Py.getitem block_data "value" in
                        Py.get v "value" (VDict [])) in
    let* block_type := lift (Py.get block "type" VNone) in
    let* block_properties := lift (Py.get block "properties" (VDict [])) in
    let* block_content_ids := lift (Py.get block "content" (VList [])) in
    let children :=
      let* child_ids := lift (Py.iter block_content_ids) in
      for_each
        (λ child_id,
           let* found := lift (find_block blocks child_id) in
           match found with
           | Some (id, child_data) =>
               process_block fuel' url root_page_id blocks id child_data
           | None => sret []
           end)
        child_ids in
    if Py.is_str block_type "text" then
      let* text := lift (formatted_title block_properties) in
      sret [text]
    else if Py.is_str block_type "header" then
      let* text := lift (formatted_title block_properties) in
      sret ["# " +:+ text]
    else if Py.is_str block_type "sub_header" then
      let* text := lift (formatted_title block_properties) in
      sret ["## " +:+ text]
    else if Py.is_str block_type "sub_sub_header" then
      let* text := lift (formatted_title block_properties) in
      sret ["### " +:+ text]
    else if Py.is_str block_type "bulleted_list" then
      let* text := lift (formatted_title block_properties) in
      sret ["- " +:+ text]
    else if Py.is_str block_type "numbered_list" then
      let* text := lift (formatted_title block_properties) in
      sret ["1. " +:+ text]
    else if Py.is_str block_type "to_do" then
      let* text := lift (formatted_title block_properties) in
      let* checked := lift (Py.get block "checked" (VBool false)) in
      let checkbox := if Py.truthy checked then "[x]" else "[ ]" in
      sret [checkbox +:+ " " +:+ text]
    else if Py.is_str block_type "toggle" then
      let* text := lift (formatted_title block_properties) in
      let* toggle_content := children in
      let toggle_content_str := String.concat (nl +:+ nl) toggle_content in
      sret ["<details>" +:+ nl +:+ "<summary>" +:+ text +:+ "</summary>"
            +:+ nl +:+ nl +:+ toggle_content_str +:+ nl +:+ "</details>"]
    else if Py.is_str block_type "callout" then
      let* text := lift (formatted_title block_properties) in
      sret ["> " +:+ text]
    else if Py.is_str block_type "quote" then
      let* text := lift (formatted_title block_properties) in
      sret ["> " +:+ text]
    else if Py.is_str block_type "divider" then sret ["---"]
    else if Py.is_str block_type "code" then
      lift (render_code block_properties)
    else if Py.is_str block_type "image" then
      lift (render_image root_page_id blocks block_id block_properties)
    else if Py.is_str block_type "bookmark" then
      lift (render_bookmark block block_properties)
    else if Py.is_str block_type "table" then
      lift (render_table blocks block_content_ids)
    else if Py.is_str block_type "page" then
      let* page_title := lift (formatted_title block_properties) in
      let* single := read single_mode in
      let* lines :=
        if single then
          let subpage_url := subpage_url_of url page_title block_id in
          let* pages_content :=
            process_page fuel' subpage_url "" false false in
          match pages_content with
          | first :: _ => sret ["# " +:+ page_title; content first]
          | [] => sret []
          end
        else
          let slug := slugify ext page_title in
          sret ["[" +:+ page_title +:+ "](./" +:+ slug +:+ "/" +:+ slug
                +:+ ".md)"] in
      let* _ := update (register_page block_id
                          {| info_title := page_title;
                             info_parent_id := root_page_id |}) in
      sret lines
    else if Py.is_str block_type "column_list"
            || Py.is_str block_type "column" then
      let* column_content := children in
      match column_content with
      | [] => sret []
      | _ :: _ => sret [String.concat (nl +:+ nl) column_content]
      end
    else sret []
  end

with extract_page_content (fuel : nat) (url : string) (data : value)
    {struct fuel} : M (option page_content) :=
  match fuel with
  | 0 => lift (Raise RecursionError)
  | S fuel' =>
    let* has_map :=
      if negb (Py.truthy data) then sret false
      else lift (Py.contains "recordMap" data) in
    if negb has_map then sret None
    else
    let* record_map := lift (Py.getitem data "recordMap") in
    let* has_block := lift (Py.contains "block" record_map) in
    if negb has_block then sret None
    else
    let* block_table := lift (Py.getitem record_map "block") in
    match block_table with
    | VDict blocks =>
      let* root_page_id := lift (locate_root data blocks) in
      if negb (Py.truthy root_page_id) then sret None
      else
      let* root_block :=
        lift (let? entry := Py.dict_get blocks root_page_id (VDict []) in
              inner_value entry) in
      let* title :=
        lift (let? props := Py.get root_block "properties" (VDict []) in
              let? t := Py.get props "title" (VList []) in
              extract_text_from_property t) in
      let* content_ids := lift (Py.get root_block "content" (VList [])) in
      let* block_ids := lift (Py.iter content_ids) in
      let* content :=
        for_each
          (λ block_id,
             let* found := lift (find_block blocks block_id) in
             match found with
             | Some (id, block_data) =>
                 process_block fuel' url root_page_id blocks id block_data
             | None => sret []
             end)
          block_ids in
      let* registry := read page_data in
      sret (Some {| title := title;
                    content := String.concat (nl +:+ nl) content;
                    subpages := map fst registry |})
    | _ => lift (no_block_table data block_table)
    end
  end

with process_page (fuel : nat) (url : string) (parent_path : string)
    (save_content recursive : bool) {struct fuel} : M (list page_content) :=
  match fuel with
  | 0 => lift (Raise RecursionError)
  | S fuel' =>
    let* visited := read visited_pages in
    if bool_decide (url ∈ visited) then sret []
    else
    let* _ := update (mark_visited url) in
    let* earlier := read downloads in
    let* _ := update (log_download url) in
    match download_page ext earlier url with
    | None => sret []
    | Some html_content =>
      if String.eqb html_content "" then sret []
      else
      let data := extract_json_data ext html_content in
      if negb (Py.truthy data) then sret []
      else
      let* extracted := extract_page_content fuel' url data in
      match extracted with
      | None => sret []
      | Some page =>
        let page_title :=
          if String.eqb (title page) "" then "Untitled" else title page in
        let safe_title := slugify ext page_title in
        let* _ :=
          if save_content then
            let* dir := read output_dir in
            let page_dir :=
              path_join ext (path_join ext dir parent_path) safe_title in
            let md_file_path := path_join ext page_dir (safe_title +:+ ".md") in
            update (log_file md_file_path
                      ("# " +:+ page_title +:+ nl +:+ nl +:+ content page))
          else sret tt in
        let* below :=
          if recursive then
            let* record_map := lift (Py.getitem data "recordMap") in
            let* block_table := lift (Py.getitem record_map "block") in
            for_each
              (λ subpage_id,
                 let* present := lift (Py.contains subpage_id block_table) in
                 if present then
                   let* subpage_title :=
                     lift (let? entry := Py.getitem block_table subpage_id in
                           let? subpage_block := inner_value entry in
                           let? props :=
                             Py.get subpage_block "properties" (VDict []) in
                           let? t := Py.get props "title" (VList []) in
                           extract_text_from_property t) in
                   let subpage_url :=
                     subpage_url_of url subpage_title subpage_id in
                   process_page fuel' subpage_url
                     (path_join ext parent_path safe_title) save_content true
                 else sret [])
              (subpages page)
          else sret [] in
        sret (page :: below)
      end
    end
  end.

End Converter.

(** ** The methods around the core *)

(** *** [download_page]: the retry loop *)

Module Http.

(** What one [requests.get] followed by [raise_for_status] comes to: the
    text of the response, a [requests.RequestException], or any other
    exception. *)
Inductive response : Type :=
| Text (body : string)
| RequestException
| OtherException.

(** What the loop does to the outside world. *)
Inductive event : Type :=
| Get (url : string)
| Sleep (seconds : nat).

Section Download.

(** The answer to the request made after [retries] failed ones. *)
Context (requests_get : nat → string → response).

(** The loop [while retries < max_retries], from the state
    [(retries, retry_delay)]; [fuel] bounds the number of iterations.  The
    result is what the method returns and the requests and sleeps it made,
    in order. *)
Fixpoint attempts (fuel : nat) (url : string) (max_retries : nat)
    (retries retry_delay : nat) : option string * list event :=
  match fuel with
  | 0 => (None, [])
  | S fuel' =>
      if (retries <? max_retries)%nat then
        match requests_get retries url with
        | Text body => (Some body, [Get url])
        | RequestException =>
            let retries := S retries in
            if (retries <? max_retries)%nat then
              let '(result, events) :=
                attempts fuel' url max_retries retries (retry_delay * 2) in
              (result, Get url :: Sleep retry_delay :: events)
            else (None, [Get url])
        | OtherException => (None, [Get url])
        end
      else (None, [])
  end.

(** [download_page(url, max_retries, retry_delay)]: every iteration that
    goes on raises [retries], so [max_retries] iterations are enough. *)
Definition download_page (url : string) (max_retries retry_delay : nat)
  : option string * list event :=
  attempts max_retries url max_retries 0 retry_delay.

End Download.

End Http.

(** *** [extract_json_data]: the payload among the scripts *)

Module Payload.

Definition dq : string := String "034"%char "".

(** The text the method looks for, and the one it splits at. *)
Definition marker : string :=
  "__notion_html_async.push(" +:+ dq +:+ "serverSidePrefetchData" +:+ dq.

Definition marker_comma : string := marker +:+ ",".

(** [s] without the prefix [p], when it has it. *)
Fixpoint strip_prefix (p s : string) : option string :=
  match p, s with
  | EmptyString, _ => Some s
  | String a p', String b s' =>
      if Ascii.eqb a b then strip_prefix p' s' else None
  | String _ _, EmptyString => None
  end.

(** [s.split(sep, 1)[1]]: what follows the first [sep], [None] when [sep]
    does not occur and the index is out of range. *)
Fixpoint after_first (sep s : string) : option string :=
  match strip_prefix sep s with
  | Some rest => Some rest
  | None =>
      match s with
      | EmptyString => None
      | String _ s' => after_first sep s'
      end
  end.

(** What precedes the last [c] of [s], [None] when [c] does not occur. *)
Fixpoint before_last (c : Ascii.ascii) (s : string) : option string :=
  match s with
  | EmptyString => None
  | String a s' =>
      match before_last c s' with
      | Some t => Some (String a t)
      | None => if Ascii.eqb a c then Some EmptyString else None
      end
  end.

(** [s.rsplit(c, 1)[0]] *)
Definition rsplit_head (c : Ascii.ascii) (s : string) : string :=
  match before_last c s with
  | Some t => t
  | None => s
  end.

(** The two lines that cut [json_str] out of [script.string]. *)
Definition json_str_of (script : string) : outcome string :=
  match after_first marker_comma script with
  | Some rest => Ok (rsplit_head ")"%char rest)
  | None => Raise IndexError
  end.

Section Extract.

(** [json.loads], [None] standing for JSONDecodeError. *)
Context (json_loads : string → option value).

(** The loop over [soup.find_all('script')], each tag given by its
    [.string]; the result [VNone] is the [None] the method returns when no
    script yields a payload. *)
Fixpoint extract_json_data (script_tags : list (option string))
  : outcome value :=
  match script_tags with
  | [] => Ok VNone
  | script :: rest =>
      match script with
      | Some s =>
          if negb (String.eqb s "") && Py.is_substring marker s then
            let? json_str := json_str_of s in
            match json_loads json_str with
            | Some data => Ok data
            | None => extract_json_data rest
            end
          else extract_json_data rest
      | None => extract_json_data rest
      end
  end.

End Extract.

End Payload.

(** *** [extract_page_id] *)

(** [s.split(c)]: never empty, the empty string giving one empty part. *)
Fixpoint split_on (c : Ascii.ascii) (s : string) : list string :=
  match s with
  | EmptyString => [EmptyString]
  | String a s' =>
      if Ascii.eqb a c then EmptyString :: split_on c s'
      else match split_on c s' with
           | part :: parts => String a part :: parts
           | [] => [String a EmptyString]
           end
  end.

(** [s.split(c)[-1]] *)
Definition last_part (c : Ascii.ascii) (s : string) : string :=
  List.last (split_on c s) EmptyString.

(** [s[:-1] if s.endswith(c) else s] *)
Fixpoint chop_trailing (c : Ascii.ascii) (s : string) : string :=
  match s with
  | EmptyString => EmptyString
  | String a EmptyString => if Ascii.eqb a c then EmptyString else s
  | String a s' => String a (chop_trailing c s')
  end.

(** [url_path] is [urlparse(url).path]. *)
Definition extract_page_id (url_path : string → string) (url : string)
  : string :=
  let path := url_path url in
  let path := chop_trailing "/"%char path in
  let page_id := last_part "/"%char path in
  if Py.is_substring "-" page_id then last_part "-"%char page_id
  else page_id.

Section Entry.

Context (ext : externals).

(** *** [_process_column_list] *)

(** The loop over [column_content_ids]: what one item appends to
    [column_items]. *)
Definition column_item (blocks : dict) (item_id : value)
  : outcome (list string) :=
  let? found := find_block blocks item_id in
  match found with
  | Some (_, item_data) =>
      let? item_block := inner_value item_data in
      let? item_type := Py.get item_block "type" VNone in
      let? item_properties := Py.get item_block "properties" (VDict []) in
      if Py.is_str item_type "text" then
        let? item_text := formatted_title ext item_properties in
        Ok [item_text]
      else if Py.is_str item_type "bulleted_list" then
        let? item_text := formatted_title ext item_properties in
        Ok ["- " +:+ item_text]
      else if Py.is_str item_type "numbered_list" then
        let? item_text := formatted_title ext item_properties in
        Ok ["1. " +:+ item_text]
      else Ok []
  | None => Ok []
  end.

(** The loop over [column_ids]: what one id appends to
    [column_content]. *)
Definition column_text (blocks : dict) (column_id : value)
  : outcome (list string) :=
  let? found := find_block blocks column_id in
  match found with
  | Some (_, column_data) =>
      let? column_block := inner_value column_data in
      let? column_type := Py.get column_block "type" VNone in
      if Py.is_str column_type "column" then
        let? column_content_ids :=
          Py.get column_block "content" (VList []) in
        let? item_ids := Py.iter column_content_ids in
        let? column_items := collect (column_item blocks) item_ids in
        match column_items with
        | [] => Ok []
        | _ :: _ => Ok [String.concat (nl +:+ nl) column_items]
        end
      else Ok []
  | None => Ok []
  end.

Definition _process_column_list (column_ids : value) (blocks : dict)
  : outcome string :=
  let? ids := Py.iter column_ids in
  let? column_content := collect (column_text blocks) ids in
  Ok (String.concat (nl +:+ nl) column_content).

(** *** The constructor and [main] *)

(** [NotionToMarkdown(output_dir, single_mode)]: the fields are set and
    [os.makedirs(output_dir, exist_ok=True)] is called, which raises when
    the directory cannot be made (an empty path, a file of that name, a
    name too long, no permission).  [makedirs] tells whether the call
    returns; there is no instance when it raises. *)
Definition NotionToMarkdown (makedirs : string → bool) (output_dir : string)
    (single_mode : bool) : option converter :=
  if makedirs output_dir then Some (init output_dir single_mode) else None.

(** The value [main] returns for the arguments [url], [--output] and
    [--single], with the converter it ran, if it got that far.  An
    exception of the constructor or of the run is caught and turned into
    1; an interrupt from the keyboard, which gives 130, is not an event of
    the model. *)
Definition main (makedirs : string → bool) (fuel : nat) (url output : string)
    (single : bool) : Z * option converter :=
  if String.eqb (url_scheme ext url) "" || String.eqb (url_netloc ext url) ""
  then (1%Z, None)
  else
    match NotionToMarkdown makedirs output single with
    | None => (1%Z, None)
    | Some self =>
        let '(result, st) :=
          process_page ext fuel url "" true (negb single) self in
        (match result with Ok _ => 0%Z | Raise _ => 1%Z end, Some st)
    end.

End Entry.

(** * Vocabulary of the properties *)

(** The rich-text runs of the specification: a text and its format
    markers, with the markup each marker stands for. *)
Module RichText.

Inductive marker : Type :=
| Bold
| Italic
| Strikethrough
| InlineCode
| Link (target : string).

Definition wrap (text : string) (m : marker) : string :=
  match m with
  | Bold => "**" +:+ text +:+ "**"
  | Italic => "*" +:+ text +:+ "*"
  | Strikethrough => "~~" +:+ text +:+ "~~"
  | InlineCode => "`" +:+ text +:+ "`"
  | Link target => "[" +:+ text +:+ "](" +:+ target +:+ ")"
  end.

(** Later markers wrap the text the earlier ones produced. *)
Definition render_run (run : string * list marker) : string :=
  fold_left wrap run.2 run.1.

Definition render (runs : list (string * list marker)) : string :=
  String.concat "" (map render_run runs).

(** The payload form of a run, as the code reads it. *)
Definition encode_marker (m : marker) : value :=
  match m with
  | Bold => VStr "b"
  | Italic => VStr "i"
  | Strikethrough => VStr "s"
  | InlineCode => VStr "c"
  | Link target => VList [VStr "a"; VStr target]
  end.

Definition encode_run (run : string * list marker) : value :=
  VList [VStr run.1; VList (map encode_marker run.2)].

Definition encode (runs : list (string * list marker)) : value :=
  VList (map encode_run runs).

End RichText.

(** Collaborators for the worked examples: identity encodings, one host,
    and a server that answers every request with the URL itself as the
    document, from which [site] reads the payload. *)
Definition example_externals (site : string → value) : externals :=
  {| quote := λ s, s;
     url_scheme := λ _, "https";
     url_netloc := λ _, "example.site";
     slugify := λ s, s;
     str_lower := λ s, s;
     str_repr := λ s, "'" +:+ s +:+ "'";
     path_join := λ a b, a +:+ "/" +:+ b;
     download_page := λ _ url, Some url;
     extract_json_data := site |}.

Definition no_site : string → value := λ _, VNone.

(** [block_data] is an entry of the block table holding the block [block]:
    [block_data['value'].get('value', {})] is that dict. *)
Definition holds_block (block_data : value) (block : dict) : Prop :=
  ∃ outer inner,
    block_data = VDict outer
    ∧ Py.lookup outer "value" = Some (VDict inner)
    ∧ Py.field inner "value" (VDict []) = VDict block.

(** The smallest such entry. *)
Definition entry (block : dict) : value :=
  VDict [("value", VDict [("value", VDict block)])].

(** A title property holding the one unformatted run [text]. *)
Definition titled (text : string) : value :=
  VDict [("title", VList [VList [VStr text]])].

(** A block of type [ty] with that title and the children [children]. *)
Definition block_of (ty text : string) (children : list string) : dict :=
  [("type", VStr ty); ("properties", titled text);
   ("content", VList (map VStr children))].

(** A payload: [pageId] and [recordMap.block]. *)
Definition payload (page_id : string) (blocks : dict) : value :=
  VDict [("pageId", VStr page_id);
         ("recordMap", VDict [("block", VDict blocks)])].

(** The table of the worked examples: a root page, a table whose first row
    has no cell, whose second has two, whose third has one and whose fourth
    has three, and an image without [source]. *)
Definition example_blocks : dict :=
  [("root", entry (block_of "page" "Root" ["tbl"; "img"]));
   ("tbl", entry (block_of "table" "" ["r0"; "r1"; "r2"; "r3"]));
   ("r0", entry (block_of "table_row" "" []));
   ("r1", entry (block_of "table_row" "" ["a"; "b"]));
   ("r2", entry (block_of "table_row" "" ["a"]));
   ("r3", entry (block_of "table_row" "" ["a"; "b"; "c"]));
   ("a", entry (block_of "text" "A" []));
   ("b", entry (block_of "text" "B" []));
   ("c", entry (block_of "text" "C" []));
   ("n", entry (block_of "numbered_list" "first" []));
   ("u", entry (block_of "bulleted_list" "first" []));
   ("img", entry [("type", VStr "image"); ("properties", VDict [])]);
   ("img2", entry [("type", VStr "image");
                   ("properties", VDict [("source", VList [VList []])])])].

(** ** How the state of a run may change

    [evolves st st']: [st'] comes later than [st] in a run.  The settings
    are the same, the visited set and the registry have only grown, and the
    downloads made in between are pairwise distinct URLs that were not
    visited in [st] and are visited in [st']. *)
Record evolves (st st' : converter) : Prop := {
  evolves_output_dir : output_dir st' = output_dir st;
  evolves_single_mode : single_mode st' = single_mode st;
  evolves_visited : visited_pages st ⊆ visited_pages st';
  evolves_registry :
    (map fst (page_data st)) `prefix_of` (map fst (page_data st'));
  evolves_files : (files st) `prefix_of` (files st');
  evolves_downloads :
    ∃ new, downloads st' = downloads st ++ new
           ∧ NoDup new
           ∧ ∀ u, u ∈ new →
                  (u ∉ visited_pages st) ∧ (u ∈ visited_pages st');
}.

(** A method all of whose runs, returning or raising, change the state
    that way. *)
Definition preserves {A} (m : M A) : Prop := ∀ st, evolves st (m st).2.

(** *** Example sites *)

Definition page_entry (page_title : string) (children : list string) : value :=
  entry (block_of "page" page_title children).

Definition url_A : string := "https://example.site/A-a".
Definition url_B : string := "https://example.site/B-b".
Definition url_C : string := "https://example.site/C-c".
Definition url_D : string := "https://example.site/D-d".

(** The diamond: A lists B and C, and B and C both list D. *)
Definition diamond_site (html : string) : value :=
  if String.eqb html url_A then
    payload "a" [("a", page_entry "A" ["b"; "c"]);
                 ("b", page_entry "B" []); ("c", page_entry "C" [])]
  else if String.eqb html url_B then
    payload "b" [("b", page_entry "B" ["d"]); ("d", page_entry "D" [])]
  else if String.eqb html url_C then
    payload "c" [("c", page_entry "C" ["d"]); ("d", page_entry "D" [])]
  else if String.eqb html url_D then
    payload "d" [("d", page_entry "D" ["t"]);
                 ("t", entry (block_of "text" "leaf" []))]
  else VNone.

(** The chain: A lists B, B lists C, and C holds one paragraph. *)
Definition chain_site (html : string) : value :=
  if String.eqb html url_A then
    payload "a" [("a", page_entry "A" ["b"]); ("b", page_entry "B" [])]
  else if String.eqb html url_B then
    payload "b" [("b", page_entry "B" ["c"]); ("c", page_entry "C" [])]
  else if String.eqb html url_C then
    payload "c" [("c", page_entry "C" ["t"]);
                 ("t", entry (block_of "text" "leaf" []))]
  else VNone.

(** A page B with one paragraph, listed by A. *)
Definition pair_site (html : string) : value :=
  if String.eqb html url_A then
    payload "a" [("a", page_entry "A" ["b"]); ("b", page_entry "B" [])]
  else if String.eqb html url_B then
    payload "b" [("b", page_entry "B" ["t"]);
                 ("t", entry (block_of "text" "hello" []))]
  else VNone.

(** The same collaborators with a server that never answers. *)
Definition offline_externals : externals :=
  {| quote := λ s, s;
     url_scheme := λ _, "https";
     url_netloc := λ _, "example.site";
     slugify := λ s, s;
     str_lower := λ s, s;
     str_repr := λ s, "'" +:+ s +:+ "'";
     path_join := λ a b, a +:+ "/" +:+ b;
     download_page := λ _ _, None;
     extract_json_data := no_site |}.

(** ** Vocabulary for the methods around the core *)

(** The URLs requested and the seconds slept, in order. *)
Fixpoint gets (events : list Http.event) : list string :=
  match events with
  | [] => []
  | Http.Get url :: rest => url :: gets rest
  | Http.Sleep _ :: rest => gets rest
  end.

Fixpoint sleeps (events : list Http.event) : list nat :=
  match events with
  | [] => []
  | Http.Get _ :: rest => sleeps rest
  | Http.Sleep seconds :: rest => seconds :: sleeps rest
  end.

(** [k] failed requests, each followed by a sleep twice as long as the one
    before, and one more request. *)
Fixpoint schedule (url : string) (delay k : nat) : list Http.event :=
  match k with
  | 0 => [Http.Get url]
  | S k' => Http.Get url :: Http.Sleep delay :: schedule url (delay * 2) k'
  end.

(** [c] occurs in [s]. *)
Fixpoint occurs (c : Ascii.ascii) (s : string) : bool :=
  match s with
  | EmptyString => false
  | String a s' => Ascii.eqb a c || occurs c s'
  end.

(** A script tag the loop of [extract_json_data] passes over without
    effect: no string, an empty one, one without the marker, or one whose
    cut does not parse. *)
Definition passed_over (json_loads : string → option value)
    (script : option string) : Prop :=
  match script with
  | None => True
  | Some s =>
      s = ""
      ∨ Py.is_substring Payload.marker s = false
      ∨ ∃ json_str, Payload.json_str_of s = Ok json_str
                    ∧ json_loads json_str = None
  end.

(** The types [process_block] has a branch for. *)
Definition handled_types : list string :=
  ["text"; "header"; "sub_header"; "sub_sub_header"; "bulleted_list";
   "numbered_list"; "to_do"; "toggle"; "callout"; "quote"; "divider";
   "code"; "image"; "bookmark"; "table"; "page"; "column_list"; "column"].

(** The loop over [block_content_ids] that the toggle and column branches
    of [process_block] run, at the depth they run it. *)
Definition render_children (ext : externals) (fuel : nat) (url : string)
    (root_page_id : value) (blocks : dict) (block_content_ids : value)
  : M (list string) :=
  let* child_ids := lift (Py.iter block_content_ids) in
  for_each
    (λ child_id,
       let* found := lift (find_block blocks child_id) in
       match found with
       | Some (id, child_data) =>
           process_block ext fuel url root_page_id blocks id child_data
       | None => sret []
       end)
    child_ids.

(** ** What rendering leaves alone

    [registers_only st st']: from [st] to [st'] nothing but the page
    registry may have changed. *)
Record registers_only (st st' : converter) : Prop := {
  same_output_dir : output_dir st' = output_dir st;
  same_single_mode : single_mode st' = single_mode st;
  same_visited : visited_pages st' = visited_pages st;
  same_downloads : downloads st' = downloads st;
  same_files : files st' = files st;
}.

(** A method that, run in multi-file mode, changes nothing but the
    registry. *)
Definition quiet {A} (m : M A) : Prop :=
  ∀ st, single_mode st = false → registers_only st (m st).2.

(** A method that writes no file. *)
Definition writes_nothing {A} (m : M A) : Prop :=
  ∀ st, files (m st).2 = files st.

(** The text of the file [process_page] writes for a page. *)
Definition file_text (page : page_content) : string :=
  "# " +:+ (if String.eqb (title page) "" then "Untitled" else title page)
  +:+ nl +:+ nl +:+ content page.

(** A relation on states that every run of [m] respects. *)
Definition respects (R : converter → converter → Prop) {A} (m : M A) : Prop :=
  ∀ st, R st (m st).2.

(** The visited set has grown by exactly the URLs downloaded. *)
Definition marks_its_downloads (st st' : converter) : Prop :=
  ∃ new, downloads st' = downloads st ++ new
         ∧ visited_pages st' = visited_pages st ∪ list_to_set new.

(** The keys of the registry stay distinct. *)
Definition keeps_keys_distinct (st st' : converter) : Prop :=
  NoDup (map fst (page_data st)) → NoDup (map fst (page_data st')).

(** The children [_process_column_list] is written for: an item is a
    text, a bulleted_list or a numbered_list block, a column is a column
    block whose items are such; a dangling identifier is either. *)
Definition simple_item (blocks : dict) (item_id : value) : Prop :=
  ∀ id item_data,
    find_block blocks item_id = Ok (Some (id, item_data)) →
    ∃ item_block ty,
      holds_block item_data item_block
      ∧ Py.field item_block "type" VNone = VStr ty
      ∧ ty ∈ ["text"; "bulleted_list"; "numbered_list"].

Definition simple_column (blocks : dict) (column_id : value) : Prop :=
  ∀ id column_data,
    find_block blocks column_id = Ok (Some (id, column_data)) →
    ∃ column_block item_ids,
      holds_block column_data column_block
      ∧ Py.field column_block "type" VNone = VStr "column"
      ∧ Py.field column_block "content" (VList []) = VList item_ids
      ∧ Forall (simple_item blocks) item_ids.

(** The title [process_page] reads for a listed subpage, from the entry
    of the subpage in the block table of the listing page. *)
Definition listed_subpage_title (block_table : value) (subpage_id : string) :
    outcome string :=
  let? entry := Py.getitem block_table subpage_id in
  let? subpage_block := inner_value entry in
  let? props := Py.get subpage_block "properties" (VDict []) in
  let? t := Py.get props "title" (VList []) in
  extract_text_from_property t.

(** ** The blocks rendered for a page

    [rendered blocks content_ids id block]: the loop over [content_ids]
    calls [process_block] on the block [block] of identifier [id], at
    once or, through the children loops of toggle, column_list and column
    blocks, at any depth below. *)
Inductive rendered (blocks : dict) : value → string → dict → Prop :=
| rendered_child content_ids child_ids child_id id block_data block :
    Py.iter content_ids = Ok child_ids →
    child_id ∈ child_ids →
    find_block blocks child_id = Ok (Some (id, block_data)) →
    holds_block block_data block →
    rendered blocks content_ids id block
| rendered_below content_ids child_ids child_id parent_id parent_data parent
    ty id block :
    Py.iter content_ids = Ok child_ids →
    child_id ∈ child_ids →
    find_block blocks child_id = Ok (Some (parent_id, parent_data)) →
    holds_block parent_data parent →
    Py.field parent "type" VNone = VStr ty →
    ty ∈ ["toggle"; "column_list"; "column"] →
    rendered blocks (Py.field parent "content" (VList [])) id block →
    rendered blocks content_ids id block.

(** ** Where the pages are written

    The name [sanitize_filename] gives a page, and the path of the file
    [process_page] writes for it when visited with [parent_path]. *)
Definition page_slug (ext : externals) (page : page_content) : string :=
  slugify ext (if String.eqb (title page) "" then "Untitled" else title page).

Definition file_path (ext : externals) (dir parent_path : string)
    (page : page_content) : string :=
  path_join ext
    (path_join ext (path_join ext dir parent_path) (page_slug ext page))
    (page_slug ext page +:+ ".md").

(** [saved ext dir parent_path pages written]: [written] is what a visit
    made with [parent_path] that returns [pages] writes below the output
    directory [dir].  The page of the visit comes first, under
    [parent_path]; then come the pages of the visits of its subpages, each
    visit made with [parent_path] joined with the name of the page. *)
Inductive saved (ext : externals) (dir : string)
  : string → list page_content → list (string * string) → Prop :=
| saved_nothing parent_path : saved ext dir parent_path [] []
| saved_page parent_path page below written :
    saved_below ext dir (path_join ext parent_path (page_slug ext page))
      below written →
    saved ext dir parent_path (page :: below)
      ((file_path ext dir parent_path page, file_text page) :: written)
with saved_below (ext : externals) (dir : string)
  : string → list page_content → list (string * string) → Prop :=
| saved_below_nil parent_path : saved_below ext dir parent_path [] []
| saved_below_app parent_path pages written pages' written' :
    saved ext dir parent_path pages written →
    saved_below ext dir parent_path pages' written' →
    saved_below ext dir parent_path (pages ++ pages') (written ++ written').

(** * Properties *)

(** ** Rich text: formats wrap in the order of the input *)

Section RichTextFacts.

Context (ext : externals).
Import RichText.

Lemma apply_format_encode text m :
  apply_format ext (VStr text) (encode_marker m) = Ok (VStr (wrap text m)).
Proof. destruct m; reflexivity. Qed.

Lemma apply_formats_encode ms : ∀ text,
  apply_formats ext (VStr text) (map encode_marker ms)
  = Ok (VStr (fold_left wrap ms text)).
Proof.
  induction ms as [|m ms IH]; intros text; [reflexivity|].
  cbn [map apply_formats fold_left]. rewrite apply_format_encode.
  cbn [obind]. apply IH.
Qed.

Lemma collect_encode runs :
  collect (formatted_item ext) (map encode_run runs)
  = Ok (map (λ r, VStr (render_run r)) runs).
Proof.
  induction runs as [|[text ms] runs IH]; [reflexivity|].
  cbn [map collect encode_run formatted_item fst snd].
  rewrite apply_formats_encode. cbn [obind]. rewrite IH. reflexivity.
Qed.

Lemma strings_of_VStr {A} (f : A → string) (xs : list A) :
  Py.strings_of (map (λ x, VStr (f x)) xs) = Ok (map f xs).
Proof.
  induction xs as [|x xs IH]; [reflexivity|].
  cbn [map Py.strings_of]. rewrite IH. reflexivity.
Qed.

Lemma extract_formatted_text_encode runs :
  extract_formatted_text ext (encode runs) = Ok (render runs).
Proof.
  destruct runs as [|r runs]; [reflexivity|].
  unfold extract_formatted_text, encode.
  cbn [map Py.truthy negb Py.iter obind].
  change (encode_run r :: map encode_run runs)
    with (map encode_run (r :: runs)).
  rewrite collect_encode. cbn [obind]. unfold Py.join.
  rewrite strings_of_VStr. reflexivity.
Qed.

End RichTextFacts.

(** C5, as amended: a run without format markers renders to its text
    unchanged, and the markers of a run are applied one after the other in
    the order in which the input lists them, each wrapping what the
    earlier ones produced; runs are concatenated without separator.  So
    two runs with the same text and the same sequence of markers render
    alike. *)
Theorem extract_formatted_text_input_order (ext : externals) :
  (∀ text, extract_formatted_text ext (VList [VList [VStr text]]) = Ok text)
  ∧ (∀ text,
       extract_formatted_text ext (RichText.encode [(text, [])]) = Ok text)
  ∧ (∀ text ms,
       extract_formatted_text ext (RichText.encode [(text, ms)])
       = Ok (fold_left RichText.wrap ms text))
  ∧ (∀ runs,
       extract_formatted_text ext (RichText.encode runs)
       = Ok (RichText.render runs)).
Proof.
  split; [reflexivity|].
  split; [intros text; apply extract_formatted_text_encode|].
  split; [|apply extract_formatted_text_encode].
  intros text ms. apply extract_formatted_text_encode.
Qed.

(** C5 as stated fails: bold-then-strikethrough and strikethrough-then-bold
    are the same set of markers on the same text and render differently. *)
Lemma marker_order_changes_output :
  let ext := example_externals no_site in
  extract_formatted_text ext
    (VList [VList [VStr "x"; VList [VStr "b"; VStr "s"]]])
  = Ok "~~**x**~~"
  ∧ extract_formatted_text ext
      (VList [VList [VStr "x"; VList [VStr "s"; VStr "b"]]])
    = Ok "**~~x~~**"
  ∧ ¬ (∀ (text : string) (ms1 ms2 : list RichText.marker),
         ms1 ≡ₚ ms2 →
         extract_formatted_text ext (RichText.encode [(text, ms1)])
         = extract_formatted_text ext (RichText.encode [(text, ms2)])).
Proof.
  intros ext. split; [reflexivity|]. split; [reflexivity|].
  intros H.
  specialize (H "x" [RichText.Bold; RichText.Strikethrough]
                [RichText.Strikethrough; RichText.Bold] (perm_swap _ _ _)).
  vm_compute in H. discriminate H.
Qed.

(** ** Blocks: dispatch on the type *)

Lemma holds_block_entry (block : dict) : holds_block (entry block) block.
Proof. eexists _, _. split; [reflexivity|]. split; reflexivity. Qed.

Lemma sbind_lift_Ok {A B} (a : A) (k : A → M B) : sbind (lift (Ok a)) k = k a.
Proof. reflexivity. Qed.

(** Runs the prologue of [process_block] on an entry that holds a block of
    a known type, and picks the branch of that type. *)
Ltac block_prologue Hblock Hty :=
  destruct Hblock as (?outer & ?inner & -> & ?Hv & ?Hb);
  cbn [process_block Py.contains]; unfold Py.has_key; rewrite Hv;
  rewrite sbind_lift_Ok; cbn [negb Py.getitem]; rewrite Hv;
  cbn [obind Py.get]; rewrite Hb, sbind_lift_Ok; cbn [Py.get];
  rewrite sbind_lift_Ok, Hty, !sbind_lift_Ok;
  cbn [Py.is_str String.eqb Ascii.eqb Bool.eqb orb].

Section BlockFacts.

Context (ext : externals).
Implicit Types (fuel : nat) (url id : string) (root : value).
Implicit Types (blocks block : dict) (st : converter).

Lemma process_block_table fuel url root blocks id block_data block st :
  holds_block block_data block →
  Py.field block "type" VNone = VStr "table" →
  process_block ext (S fuel) url root blocks id block_data st
  = (render_table ext blocks (Py.field block "content" (VList [])), st).
Proof. intros Hblock Hty. block_prologue Hblock Hty. reflexivity. Qed.

Lemma process_block_image fuel url root blocks id block_data block st :
  holds_block block_data block →
  Py.field block "type" VNone = VStr "image" →
  process_block ext (S fuel) url root blocks id block_data st
  = (render_image ext root blocks id
       (Py.field block "properties" (VDict [])), st).
Proof. intros Hblock Hty. block_prologue Hblock Hty. reflexivity. Qed.

(** An image block renders only if its [source] unwraps to a string. *)
Lemma render_image_needs_source root blocks id props lines :
  render_image ext root blocks id (VDict props) = Ok lines →
  ∃ s, unwrap (Py.field props "source" (VList [])) = VStr s.
Proof.
  unfold render_image. cbn [Py.get obind].
  destruct (Py.dict_get blocks root (VDict [])) as [root_entry|]; [|done].
  cbn [obind]. destruct (Py.get root_entry "spaceId" (VStr "")); [|done].
  cbn [obind]. destruct (unwrap (Py.field props "source" (VList [])));
    try done.
  by eexists.
Qed.

End BlockFacts.

(** *** The examples of the specification's test list *)

Example to_do_checked (ext : externals) (st : converter) :
  process_block ext 1 "u" (VStr "root") [] "t"
    (entry [("type", VStr "to_do"); ("checked", VBool true);
            ("properties",
             VDict [("title", RichText.encode [("Buy milk", [])])])]) st
  = (Ok ["[x] Buy milk"], st).
Proof. reflexivity. Qed.

Example toggle_details (ext : externals) (st : converter) :
  let blocks := [("g", entry (block_of "toggle" "Details" ["h"]));
                 ("h", entry (block_of "text" "Hello" []))] in
  process_block ext 2 "u" (VStr "root") blocks "g"
    (entry (block_of "toggle" "Details" ["h"])) st
  = (Ok ["<details>" +:+ nl +:+ "<summary>Details</summary>" +:+ nl +:+ nl
         +:+ "Hello" +:+ nl +:+ "</details>"], st).
Proof. reflexivity. Qed.

Example extract_intro_welcome (ext : externals) (url : string) :
  let blocks := [("r", page_entry "Home" ["h1"; "p1"]);
                 ("h1", entry (block_of "header" "Intro" []));
                 ("p1", entry (block_of "text" "Welcome" []))] in
  extract_page_content ext 2 url (payload "r" blocks) (init "out" false)
  = (Ok (Some {| title := "Home";
                 content := "# Intro" +:+ nl +:+ nl +:+ "Welcome";
                 subpages := [] |}), init "out" false).
Proof. reflexivity. Qed.




(** ** Tables *)

Section TableFacts.

Context (ext : externals).

Lemma fold_add_row_header header rest : ∀ body,
  header ≠ [] →
  fold_left add_row rest (header, body) = (header, body ++ rest).
Proof.
  induction rest as [|row rest IH]; intros body Hne.
  - by rewrite app_nil_r.
  - cbn [fold_left]. destruct header as [|h header]; [done|].
    cbn [add_row]. rewrite IH by done. by rewrite <- app_assoc.
Qed.

Lemma fold_add_row_empties empties : ∀ body,
  Forall (λ row, row = []) empties →
  fold_left add_row empties ([], body) = ([], body ++ empties).
Proof.
  induction empties as [|row empties IH]; intros body Hall.
  - by rewrite app_nil_r.
  - inversion Hall as [|? ? -> Hall']; subst. cbn [fold_left add_row].
    rewrite IH by done. by rewrite <- app_assoc.
Qed.

(** The header is the first row that has a cell; the empty rows before
    it and all rows after it are the body. *)
Lemma fold_add_row_split empties header rest :
  Forall (λ row, row = []) empties →
  header ≠ [] →
  fold_left add_row (empties ++ header :: rest) ([], [])
  = (header, empties ++ rest).
Proof.
  intros Hall Hne. rewrite fold_left_app, fold_add_row_empties by done.
  cbn [fold_left app]. destruct header as [|h header]; [done|].
  cbn [add_row]. by rewrite fold_add_row_header.
Qed.

Lemma render_table_split blocks child_ids empties header rest :
  collect (row_cells ext blocks) child_ids = Ok (empties ++ header :: rest) →
  Forall (λ row, row = []) empties →
  header ≠ [] →
  render_table ext blocks (VList child_ids)
  = Ok [String.concat nl (table_md header (empties ++ rest))].
Proof.
  intros Hrows Hall Hne. unfold render_table. cbn [Py.iter obind].
  rewrite Hrows. cbn [obind]. rewrite fold_add_row_split by done.
  by destruct header.
Qed.

Lemma pad_row_short (width : nat) (row : list string) :
  (length row ≤ width)%nat → length (pad_row width row) = width.
Proof.
  intros Hle. unfold pad_row. rewrite length_app, length_replicate. lia.
Qed.

Lemma pad_row_wide (width : nat) (row : list string) :
  (width ≤ length row)%nat → pad_row width row = row.
Proof.
  intros Hle. unfold pad_row.
  replace (width - length row) with 0 by lia. apply app_nil_r.
Qed.

End TableFacts.

(** C7, as amended: the first child row that has at least one cell becomes
    the header row; every other row, the cell-less rows met before it
    included, is a body row, in the order met.  Every body row with fewer
    cells than the header is padded with empty cells to the header width,
    and the separator row has exactly as many dash cells as the header has
    cells. *)
Theorem table_header_is_first_row_with_cells (ext : externals) (fuel : nat)
    (url : string) (root : value) (blocks : dict) (id : string)
    (block_data : value) (block : dict) (st : converter)
    (child_ids : list value) (empties : list (list string))
    (header : list string) (rest : list (list string)) :
  holds_block block_data block →
  Py.field block "type" VNone = VStr "table" →
  Py.field block "content" (VList []) = VList child_ids →
  collect (row_cells ext blocks) child_ids = Ok (empties ++ header :: rest) →
  Forall (λ row, row = []) empties →
  header ≠ [] →
  let width := length header in
  let separator := replicate width "---" in
  let body := map (pad_row width) (empties ++ rest) in
  process_block ext (S fuel) url root blocks id block_data st
  = (Ok [String.concat nl
           (String.concat " | " header
            :: String.concat " | " separator
            :: map (String.concat " | ") body)], st)
  ∧ length separator = width
  ∧ ∀ row, row ∈ empties ++ rest → length row < width →
      pad_row width row = row ++ replicate (width - length row) ""
      ∧ length (pad_row width row) = width.
Proof.
  intros Hblock Hty Hcontent Hrows Hall Hne width separator body.
  split; [|split].
  - rewrite (process_block_table ext _ _ _ _ _ _ block) by done.
    rewrite Hcontent, (render_table_split ext _ _ empties header rest) by done.
    unfold table_md, body. by rewrite map_map.
  - apply length_replicate.
  - intros row _ Hlt. split; [reflexivity|]. apply pad_row_short. lia.
Qed.

Lemma table_header_is_first_row_with_cells_witness :
  let ext := example_externals no_site in
  let st := init "out" false in
  process_block ext 1 "u" (VStr "root") example_blocks "tbl"
    (entry (block_of "table" "" ["r0"; "r1"; "r2"; "r3"])) st
  = (Ok [String.concat nl
           ["A | B"; "--- | ---"; " | "; "A | "; "A | B | C"]], st)
  ∧ pad_row 2 ["A"] = ["A"; ""].
Proof.
  intros ext st.
  pose proof (table_header_is_first_row_with_cells ext 0 "u" (VStr "root")
                example_blocks "tbl" _
                (block_of "table" "" ["r0"; "r1"; "r2"; "r3"]) st
                [VStr "r0"; VStr "r1"; VStr "r2"; VStr "r3"]
                [[]] ["A"; "B"] [["A"]; ["A"; "B"; "C"]]
                (holds_block_entry _) eq_refl eq_refl eq_refl
                ltac:(repeat constructor)
                ltac:(discriminate)) as (Hout & _ & Hpad).
  split; [exact Hout|].
  apply (Hpad ["A"]); [|cbn; lia].
  apply list_elem_of_In. cbn. tauto.
Defined.

(** C7 as stated fails: the first row met has no cell, the second has two;
    the second becomes the header and the first is emitted as a body row
    under the separator. *)
Lemma table_first_row_without_cells :
  let ext := example_externals no_site in
  let st := init "out" false in
  let blocks :=
    [("tbl", entry (block_of "table" "" ["r0"; "r1"]));
     ("r0", entry (block_of "table_row" "" []));
     ("r1", entry (block_of "table_row" "" ["a"; "b"]));
     ("a", entry (block_of "text" "A" []));
     ("b", entry (block_of "text" "B" []))] in
  collect (row_cells ext blocks) [VStr "r0"; VStr "r1"] = Ok [[]; ["A"; "B"]]
  ∧ process_block ext 1 "u" (VStr "root") blocks "tbl"
      (entry (block_of "table" "" ["r0"; "r1"])) st
    = (Ok [String.concat nl ["A | B"; "--- | ---"; " | "]], st).
Proof. split; reflexivity. Qed.

(** C10: a body row with more cells than the header is emitted with all
    of its cells, so its line is wider than the separator row: the
    separator has one "---" for each cell of the header, no more, and the
    row has more cells than that. *)
Theorem table_wide_row_is_not_truncated (ext : externals) (fuel : nat)
    (url : string) (root : value) (blocks : dict) (id : string)
    (block_data : value) (block : dict) (st : converter)
    (child_ids : list value) (empties : list (list string))
    (header : list string) (rest : list (list string))
    (i : nat) (row : list string) :
  holds_block block_data block →
  Py.field block "type" VNone = VStr "table" →
  Py.field block "content" (VList []) = VList child_ids →
  collect (row_cells ext blocks) child_ids = Ok (empties ++ header :: rest) →
  Forall (λ row, row = []) empties →
  header ≠ [] →
  (empties ++ rest) !! i = Some row →
  length header < length row →
  ∃ lines,
    process_block ext (S fuel) url root blocks id block_data st
    = (Ok [String.concat nl lines], st)
    ∧ length lines = 2 + length (empties ++ rest)
    ∧ lines !! 0 = Some (String.concat " | " header)
    ∧ lines !! 1
      = Some (String.concat " | " (replicate (length header) "---"))
    ∧ lines !! (2 + i) = Some (String.concat " | " row)
    ∧ length (replicate (length header) "---") < length row.
Proof.
  intros Hblock Hty Hcontent Hrows Hall Hne Hrow Hwide.
  exists (table_md header (empties ++ rest)).
  split; [|split; [|split; [|split; [|split]]]].
  - rewrite (process_block_table ext _ _ _ _ _ _ block) by done.
    by rewrite Hcontent, (render_table_split ext _ _ empties header rest).
  - unfold table_md. cbn [length]. by rewrite length_map.
  - reflexivity.
  - reflexivity.
  - unfold table_md.
    change (((λ r, String.concat " | " (pad_row (length header) r))
               <$> (empties ++ rest)) !! i = Some (String.concat " | " row)).
    rewrite list_lookup_fmap, Hrow. cbn [fmap option_fmap option_map].
    by rewrite pad_row_wide by lia.
  - by rewrite length_replicate.
Qed.

Lemma table_wide_row_is_not_truncated_witness :
  let ext := example_externals no_site in
  let st := init "out" false in
  ∃ lines,
    process_block ext 1 "u" (VStr "root") example_blocks "tbl"
      (entry (block_of "table" "" ["r0"; "r1"; "r2"; "r3"])) st
    = (Ok [String.concat nl lines], st)
    ∧ length lines = 5
    ∧ lines !! 0 = Some "A | B"
    ∧ lines !! 1 = Some "--- | ---"
    ∧ lines !! 4 = Some "A | B | C"
    ∧ length ["---"; "---"] < length ["A"; "B"; "C"].
Proof.
  intros ext st.
  exact (table_wide_row_is_not_truncated ext 0 "u" (VStr "root")
           example_blocks "tbl" _
           (block_of "table" "" ["r0"; "r1"; "r2"; "r3"]) st
           [VStr "r0"; VStr "r1"; VStr "r2"; VStr "r3"]
           [[]] ["A"; "B"] [["A"]; ["A"; "B"; "C"]] 2 ["A"; "B"; "C"]
           (holds_block_entry _) eq_refl eq_refl eq_refl
           ltac:(repeat constructor)
           ltac:(discriminate) eq_refl ltac:(cbn; lia)).
Defined.

(** C1 is violated by the code: an image block whose [source] is absent,
    or unwraps to the empty list, makes [quote] raise TypeError before the
    guard [if source:] is reached, and the exception aborts the extraction
    of the page that holds the block. *)
Theorem image_without_source_raises (ext : externals) (fuel : nat)
    (url : string) (st : converter) :
  process_block ext (S fuel) url (VStr "root") example_blocks "img"
    (entry [("type", VStr "image"); ("properties", VDict [])]) st
  = (Raise TypeError, st)
  ∧ process_block ext (S fuel) url (VStr "root") example_blocks "img2"
      (entry [("type", VStr "image");
              ("properties", VDict [("source", VList [VList []])])]) st
    = (Raise TypeError, st)
  ∧ extract_page_content ext (S (S fuel)) url (payload "root" example_blocks) st
    = (Raise TypeError, st).
Proof. split; [|split]; reflexivity. Qed.

(** C3 is violated by the code: a [pageId] that names no block, in a table
    without page block, is kept as the root, and the extraction returns an
    empty page instead of failing.  (The fallback scan, for its part, reads
    the type one level above where the renderer reads it, and so misses a
    page block the renderer would render.) *)
Theorem dangling_page_id_yields_empty_page (ext : externals) (fuel : nat)
    (url : string) (st : converter) :
  extract_page_content ext (S fuel) url
    (payload "ghost" [("t", entry (block_of "text" "hi" []))]) st
  = (Ok (Some {| title := ""; content := "";
                 subpages := map fst (page_data st) |}), st)
  ∧ extract_page_content ext (S fuel) url
      (VDict [("recordMap",
               VDict [("block", VDict [("p", page_entry "Home" [])])])]) st
    = (Ok None, st).
Proof. split; reflexivity. Qed.

(** ** The run: what every method preserves *)

Lemma evolves_same_downloads st st' :
  output_dir st' = output_dir st →
  single_mode st' = single_mode st →
  visited_pages st ⊆ visited_pages st' →
  (map fst (page_data st)) `prefix_of` (map fst (page_data st')) →
  (files st) `prefix_of` (files st') →
  downloads st' = downloads st →
  evolves st st'.
Proof.
  intros Hd Hs Hv Hr Hf Hn. split; try done.
  exists []. rewrite app_nil_r. split; [done|]. split; [constructor|].
  intros u Hu. by apply elem_of_nil in Hu.
Qed.

Lemma evolves_refl st : evolves st st.
Proof. by apply evolves_same_downloads. Qed.

Lemma evolves_trans st1 st2 st3 :
  evolves st1 st2 → evolves st2 st3 → evolves st1 st3.
Proof.
  intros [Hd1 Hs1 Hv1 Hr1 Hf1 (new1 & Hn1 & Hnd1 & Hin1)]
         [Hd2 Hs2 Hv2 Hr2 Hf2 (new2 & Hn2 & Hnd2 & Hin2)].
  split.
  - congruence.
  - congruence.
  - set_solver.
  - by etrans.
  - by etrans.
  - exists (new1 ++ new2). split; [by rewrite Hn2, Hn1, app_assoc|].
    split.
    + apply NoDup_app. split; [done|]. split; [|done].
      intros u Hu1 Hu2. apply Hin1 in Hu1 as [_ Hu1].
      apply Hin2 in Hu2 as [Hu2 _]. done.
    + intros u [Hu|Hu]%elem_of_app.
      * apply Hin1 in Hu as [? ?]. split; [done|]. by apply Hv2.
      * apply Hin2 in Hu as [Hu ?]. split; [|done].
        intros Hv. apply Hu. by apply Hv1.
Qed.

Lemma dict_set_keys {V} (d : list (string * V)) k v :
  (map fst d) `prefix_of` (map fst (dict_set d k v)).
Proof.
  induction d as [|[k' v'] d IH]; cbn [dict_set map].
  - apply prefix_nil.
  - destruct (String.eqb k' k); cbn [map fst]; [done|].
    by apply prefix_cons.
Qed.

Lemma dict_set_key {V} (d : list (string * V)) k v :
  k ∈ map fst (dict_set d k v).
Proof.
  induction d as [|[k' v'] d IH]; cbn [dict_set map fst].
  - apply list_elem_of_here.
  - destruct (String.eqb k' k) eqn:E; cbn [map fst].
    + apply String.eqb_eq in E as ->. apply list_elem_of_here.
    + by apply list_elem_of_further.
Qed.

Lemma evolves_register id info st : evolves st (register_page id info st).
Proof. apply evolves_same_downloads; try done. apply dict_set_keys. Qed.

Lemma evolves_log_file path text st : evolves st (log_file path text st).
Proof. apply evolves_same_downloads; try done. by apply prefix_app_r. Qed.

Lemma evolves_mark_visited url st : evolves st (mark_visited url st).
Proof. apply evolves_same_downloads; try done. cbn. set_solver. Qed.

(** The one place where a download is made: the URL was not visited and
    has just been marked. *)
Lemma evolves_fetch url st :
  url ∉ visited_pages st →
  evolves st (log_download url (mark_visited url st)).
Proof.
  intros Hnew. split; try done.
  - cbn. set_solver.
  - exists [url]. split; [done|]. split; [apply NoDup_singleton|].
    intros u ->%list_elem_of_singleton. split; [done|]. cbn. set_solver.
Qed.

Section RunFacts.

Context (ext : externals).

Lemma preserves_sret {A} (a : A) : preserves (sret a).
Proof. intros st. apply evolves_refl. Qed.

Lemma preserves_lift {A} (m : outcome A) : preserves (lift m).
Proof. intros st. apply evolves_refl. Qed.

Lemma preserves_read {A} (f : converter → A) : preserves (read f).
Proof. intros st. apply evolves_refl. Qed.

Lemma preserves_update f : (∀ st, evolves st (f st)) → preserves (update f).
Proof. intros Hf st. apply Hf. Qed.

Lemma preserves_sbind {A B} (m : M A) (k : A → M B) :
  preserves m → (∀ a, preserves (k a)) → preserves (sbind m k).
Proof.
  intros Hm Hk st. unfold sbind. specialize (Hm st).
  destruct (m st) as [[a|e] st']; cbn [snd] in *; [|done].
  eapply evolves_trans; [done|]. apply Hk.
Qed.

Lemma preserves_for_each {A B} (f : A → M (list B)) items :
  (∀ x, preserves (f x)) → preserves (for_each f items).
Proof.
  intros Hf. induction items as [|x items IH]; cbn [for_each].
  - apply preserves_sret.
  - apply preserves_sbind; [done|]. intros ys.
    apply preserves_sbind; [done|]. intros zs. apply preserves_sret.
Qed.

(** The guard of [process_page]: the rest of the method runs, and
    downloads, only for a URL that was not visited. *)
Lemma preserves_guarded_fetch {A} url (rest : list string → M (list A)) :
  (∀ earlier, preserves (rest earlier)) →
  preserves
    (let* visited := read visited_pages in
     if bool_decide (url ∈ visited) then sret []
     else
       let* _ := update (mark_visited url) in
       let* earlier := read downloads in
       let* _ := update (log_download url) in
       rest earlier).
Proof.
  intros Hrest st. unfold sbind, read, update.
  case_bool_decide as Hvisited; [apply evolves_refl|].
  eapply evolves_trans; [apply (evolves_fetch url st Hvisited)|].
  apply Hrest.
Qed.

Local Ltac preserve IH :=
  repeat first
    [ apply preserves_sret
    | apply preserves_lift
    | apply preserves_read
    | apply IH
    | apply preserves_update;
      first [ apply evolves_register | apply evolves_log_file
            | apply evolves_mark_visited ]
    | apply preserves_sbind; [|intros ?]
    | apply preserves_for_each; intros ?
    | match goal with
      | |- preserves (if ?b then _ else _) => destruct b
      | |- preserves (match ?x with _ => _ end) => destruct x
      | |- preserves (let '(_, _) := ?x in _) => destruct x
      end ].

(** Every method of the converter preserves [evolves], whatever it
    returns or raises. *)
Lemma methods_preserve (fuel : nat) :
  (∀ url root blocks id block_data,
     preserves (process_block ext fuel url root blocks id block_data))
  ∧ (∀ url data, preserves (extract_page_content ext fuel url data))
  ∧ (∀ url parent_path save_content recursive,
       preserves (process_page ext fuel url parent_path save_content recursive)).
Proof.
  induction fuel as [|fuel (IHblock & IHextract & IHpage)].
  { repeat split; intros; apply preserves_lift. }
  split; [|split].
  - intros url root blocks id block_data. cbn [process_block].
    preserve IHblock. all: try apply IHpage.
  - intros url data. cbn [extract_page_content]. preserve IHblock.
  - intros url parent_path save_content recursive.
    cbn [process_page]. apply preserves_guarded_fetch. intros earlier.
    preserve IHextract. all: try apply IHpage.
Qed.

Implicit Types (fuel : nat) (url parent_path : string).
Implicit Types (save_content recursive : bool) (st : converter).

Lemma process_page_evolves fuel url parent_path save_content recursive st :
  evolves st
    (process_page ext fuel url parent_path save_content recursive st).2.
Proof. apply (methods_preserve fuel). Qed.

(** The guard: a visited URL yields the empty result and leaves the
    state, its download trace included, as it was. *)
Lemma process_page_visited fuel url parent_path save_content recursive st :
  url ∈ visited_pages st →
  process_page ext (S fuel) url parent_path save_content recursive st
  = (Ok [], st).
Proof.
  intros Hvisited. cbn [process_page]. unfold sbind at 1, read at 1.
  by rewrite bool_decide_eq_true_2.
Qed.

Lemma guarded_fetch_marks {A} url (rest : list string → M (list A)) st :
  (∀ earlier, preserves (rest earlier)) →
  url ∈ visited_pages
          ((let* visited := read visited_pages in
            if bool_decide (url ∈ visited) then sret []
            else
              let* _ := update (mark_visited url) in
              let* earlier := read downloads in
              let* _ := update (log_download url) in
              rest earlier) st).2.
Proof.
  intros Hrest. unfold sbind, read, update.
  case_bool_decide as Hvisited; [done|].
  eapply evolves_visited; [apply Hrest|]. cbn. set_solver.
Qed.

(** Whatever happens to the page, its URL is visited afterwards. *)
Lemma process_page_marks fuel url parent_path save_content recursive st :
  url ∈ visited_pages
          (process_page ext (S fuel) url parent_path save_content
             recursive st).2.
Proof.
  cbn [process_page]. apply guarded_fetch_marks. intros earlier.
  pose proof (methods_preserve fuel) as (IHblock & IHextract & IHpage).
  preserve IHextract. all: try apply IHpage.
Qed.

(** A URL that is visited is not downloaded again. *)
Lemma visited_url_not_downloaded st st' url :
  evolves st st' → url ∈ visited_pages st →
  url ∈ visited_pages st'
  ∧ ∃ new, downloads st' = downloads st ++ new ∧ url ∉ new.
Proof.
  intros [_ _ Hv _ _ (new & Hnew & _ & Hin)] Hvisited.
  split; [by apply Hv|]. exists new. split; [done|].
  intros Hu. by apply Hin in Hu as [? _].
Qed.

(** A failed download ends the visit with the empty result, the URL
    marked. *)
Lemma process_page_download_fails fuel url parent_path save_content
    recursive st :
  url ∉ visited_pages st →
  download_page ext (downloads st) url = None →
  process_page ext (S fuel) url parent_path save_content recursive st
  = (Ok [], log_download url (mark_visited url st)).
Proof.
  intros Hnew Hfail. cbn [process_page]. unfold sbind, read, update.
  rewrite bool_decide_eq_false_2 by done. cbn [downloads mark_visited].
  by rewrite Hfail.
Qed.

End RunFacts.

(** C4: within one run no URL is downloaded twice.  The downloads of a
    run started on a fresh converter are pairwise distinct, at every depth
    of the crawl and whether it ends normally or not; a URL found in the
    visited set yields the empty result without a download; and in the
    diamond A→B, A→C, B→D, C→D the page D is downloaded once. *)
Theorem no_url_fetched_twice :
  (∀ ext fuel url parent_path save_content recursive dir single,
     NoDup (downloads
              (process_page ext fuel url parent_path save_content recursive
                 (init dir single)).2))
  ∧ (∀ ext fuel url parent_path save_content recursive st,
       url ∈ visited_pages st →
       process_page ext (S fuel) url parent_path save_content recursive st
       = (Ok [], st))
  ∧ (let run := process_page (example_externals diamond_site) 9 url_A ""
                  true true (init "out" false) in
     downloads run.2 = [url_A; url_B; url_D; url_C]
     ∧ count_occ String.string_dec (downloads run.2) url_D = 1).
Proof.
  split; [|split].
  - intros ext fuel url parent_path save_content recursive dir single.
    destruct (process_page_evolves ext fuel url parent_path save_content
                recursive (init dir single))
      as [_ _ _ _ _ (new & Hnew & Hnodup & _)].
    by rewrite Hnew.
  - intros. by apply process_page_visited.
  - by vm_compute.
Qed.

Lemma no_url_fetched_twice_witness :
  let st := mark_visited url_B (init "out" false) in
  process_page (example_externals diamond_site) 1 url_B "" true true st
  = (Ok [], st).
Proof.
  intros st.
  apply (proj1 (proj2 no_url_fetched_twice)).
  subst st. cbn. set_solver.
Defined.

(** C9: the URL is marked visited before the download is attempted, so
    whatever becomes of the page (the download fails, no payload is found,
    the extraction fails or raises) its URL is visited afterwards; from
    then on no later visit of the run downloads it, it stays visited, and
    visiting it again yields the empty result and changes nothing. *)
Theorem attempted_url_stays_visited (ext : externals) (fuel : nat)
    (url parent_path : string) (save_content recursive : bool)
    (st : converter) :
  let st1 :=
    (process_page ext (S fuel) url parent_path save_content recursive st).2 in
  url ∈ visited_pages st1
  ∧ (url ∉ visited_pages st →
     download_page ext (downloads st) url = None →
     process_page ext (S fuel) url parent_path save_content recursive st
     = (Ok [], log_download url (mark_visited url st)))
  ∧ (∀ fuel' url' parent_path' save_content' recursive',
       let st2 :=
         (process_page ext fuel' url' parent_path' save_content' recursive'
            st1).2 in
       url ∈ visited_pages st2
       ∧ (∃ new, downloads st2 = downloads st1 ++ new ∧ url ∉ new)
       ∧ ∀ fuel'' parent_path'' save_content'' recursive'',
           process_page ext (S fuel'') url parent_path'' save_content''
             recursive'' st2
           = (Ok [], st2)).
Proof.
  intros st1. assert (url ∈ visited_pages st1) as Hmarked
    by apply process_page_marks.
  split; [done|]. split; [apply process_page_download_fails|].
  intros fuel' url' parent_path' save_content' recursive' st2.
  destruct (visited_url_not_downloaded st1 st2 url) as [Hstill Hnew];
    [apply process_page_evolves|done|].
  split; [done|]. split; [done|]. intros. by apply process_page_visited.
Qed.

Lemma attempted_url_stays_visited_witness :
  let st := init "out" false in
  let run := process_page offline_externals 1 url_A "" true true st in
  run = (Ok [], log_download url_A (mark_visited url_A st))
  ∧ url_A ∈ visited_pages run.2.
Proof.
  intros st run.
  destruct (attempted_url_stays_visited offline_externals 0 url_A "" true
              true st) as (Hmarked & Hfails & _).
  split; [|exact Hmarked].
  apply Hfails; [|reflexivity]. cbn. set_solver.
Defined.

(** ** Reading a successful run backwards *)

Lemma sbind_Ok {A B} (m : M A) (k : A → M B) st b st' :
  sbind m k st = (Ok b, st') →
  ∃ a st1, m st = (Ok a, st1) ∧ k a st1 = (Ok b, st').
Proof.
  unfold sbind. destruct (m st) as [[a|e] st1]; [|done]. by exists a, st1.
Qed.

Lemma lift_Ok {A} (m : outcome A) st a st' :
  lift m st = (Ok a, st') → m = Ok a ∧ st' = st.
Proof. unfold lift. by intros [= -> ->]. Qed.

Lemma read_Ok {A} (f : converter → A) st a st' :
  read f st = (Ok a, st') → a = f st ∧ st' = st.
Proof. unfold read. by intros [= <- <-]. Qed.

Lemma update_Ok f st u st' :
  update f st = (Ok u, st') → st' = f st.
Proof. unfold update. by intros [= <-]. Qed.

Lemma sret_Ok {A} (a : A) st b st' :
  sret a st = (Ok b, st') → b = a ∧ st' = st.
Proof. unfold sret. by intros [= <- <-]. Qed.

(** Splits the equation [H : m st = (Ok _, _)] along the binds, branches
    and primitive steps of [m]. *)
Ltac run_inv H :=
  repeat
    lazymatch type of H with
    | sbind _ _ _ = (Ok _, _) =>
        let a := fresh "a" in let st := fresh "st" in let Hm := fresh "Hm" in
        apply sbind_Ok in H as (a & st & Hm & H);
        lazymatch type of Hm with
        | lift _ _ = _ => apply lift_Ok in Hm as [Hm ->]
        | read _ _ = _ => apply read_Ok in Hm as [-> ->]
        | update _ _ = _ => apply update_Ok in Hm as ->
        | sret _ _ = _ => apply sret_Ok in Hm as [-> ->]
        | _ => idtac
        end
    | sret _ _ = (Ok _, _) => apply sret_Ok in H as [? ?]; subst
    | lift _ _ = (Ok _, _) => apply lift_Ok in H as [H ?]; subst
    | (if ?b then _ else _) _ = (Ok _, _) => destruct b eqn:?
    | (match ?x with _ => _ end) _ = (Ok _, _) => destruct x eqn:?
    end.

Section Registry.

Context (ext : externals).

Lemma no_block_table_raises data blocks r :
  no_block_table data blocks ≠ Ok r.
Proof.
  unfold no_block_table. destruct (Py.get data "pageId" VNone) as [root|];
    [|done].
  cbn [obind]. destruct (negb (Py.truthy root)); [done|].
  by destruct blocks, root.
Qed.

Lemma extract_page_content_subpages fuel url data st page st' :
  extract_page_content ext fuel url data st = (Ok (Some page), st') →
  subpages page = map fst (page_data st').
Proof.
  destruct fuel as [|fuel]; [by intros [=]|].
  cbn [extract_page_content]. intros H. run_inv H; try discriminate.
  all: try (by apply no_block_table_raises in H).
  by injection H as ->.
Qed.

(** Rendering a page block registers its identifier. *)
Lemma process_block_page_registers fuel url root blocks id block_data
    block st lines st' :
  holds_block block_data block →
  Py.field block "type" VNone = VStr "page" →
  process_block ext fuel url root blocks id block_data st = (Ok lines, st') →
  id ∈ map fst (page_data st').
Proof.
  intros Hblock Hty. destruct fuel as [|fuel]; [by intros [=]|].
  block_prologue Hblock Hty. intros H.
  run_inv H. apply dict_set_key.
Qed.

(** In single-file mode a page block is rendered by a nested visit of
    the subpage, made with [save_content=False, recursive=False]; the
    first page it returns is inlined under the title as a heading. *)
Lemma process_block_page_single fuel url root blocks id block_data block
    st page_title :
  holds_block block_data block →
  Py.field block "type" VNone = VStr "page" →
  formatted_title ext (Py.field block "properties" (VDict []))
  = Ok page_title →
  single_mode st = true →
  process_block ext (S fuel) url root blocks id block_data st
  = let info := {| info_title := page_title; info_parent_id := root |} in
    match process_page ext fuel (subpage_url_of ext url page_title id) ""
            false false st with
    | (Ok (first :: _), st') =>
        (Ok ["# " +:+ page_title; content first], register_page id info st')
    | (Ok [], st') => (Ok [], register_page id info st')
    | (Raise e, st') => (Raise e, st')
    end.
Proof.
  intros Hblock Hty Htitle Hsingle. block_prologue Hblock Hty.
  rewrite Htitle, sbind_lift_Ok. unfold sbind at 1, read at 1.
  rewrite Hsingle. unfold sbind at 1. unfold sbind at 1.
  by destruct (process_page _ _ _ _ _ _ _) as [[[|first rest]|e] st'].
Qed.

(** In multi-file mode it is a relative link. *)
Lemma process_block_page_multi fuel url root blocks id block_data block
    st page_title :
  holds_block block_data block →
  Py.field block "type" VNone = VStr "page" →
  formatted_title ext (Py.field block "properties" (VDict []))
  = Ok page_title →
  single_mode st = false →
  process_block ext (S fuel) url root blocks id block_data st
  = (Ok ["[" +:+ page_title +:+ "](./" +:+ slugify ext page_title +:+ "/"
         +:+ slugify ext page_title +:+ ".md)"],
     register_page id {| info_title := page_title; info_parent_id := root |}
       st).
Proof.
  intros Hblock Hty Htitle Hsingle. block_prologue Hblock Hty.
  rewrite Htitle, sbind_lift_Ok. unfold sbind at 1, read at 1.
  by rewrite Hsingle.
Qed.

(** With [recursive=False] a visit returns the page itself at most. *)
Lemma process_page_not_recursive fuel url parent_path save_content st
    pages st' :
  process_page ext fuel url parent_path save_content false st
  = (Ok pages, st') →
  (length pages ≤ 1)%nat.
Proof.
  destruct fuel as [|fuel]; [by intros [=]|].
  cbn [process_page]. intros H. run_inv H; cbn [length]; lia.
Qed.

(** In single-file mode, a page block that renders has had its subpage
    visited, wherever the block is met. *)
Lemma process_block_page_visits fuel url root blocks id block_data block
    st lines st' :
  holds_block block_data block →
  Py.field block "type" VNone = VStr "page" →
  single_mode st = true →
  process_block ext fuel url root blocks id block_data st = (Ok lines, st') →
  ∃ page_title,
    formatted_title ext (Py.field block "properties" (VDict []))
    = Ok page_title
    ∧ subpage_url_of ext url page_title id ∈ visited_pages st'.
Proof.
  intros Hblock Hty Hsingle. destruct fuel as [|fuel]; [by intros [=]|].
  destruct (formatted_title ext (Py.field block "properties" (VDict [])))
    as [page_title|e] eqn:Htitle.
  - rewrite (process_block_page_single _ _ _ _ _ _ block _ page_title)
      by done.
    intros H. exists page_title. split; [done|].
    destruct fuel as [|fuel]; [by cbn in H|].
    pose proof (process_page_marks ext fuel
                  (subpage_url_of ext url page_title id) "" false false st)
      as Hmarked.
    destruct (process_page _ _ _ _ _ _ _) as [[[|first rest]|e] st''];
      cbn in H; [| |done]; by injection H as _ <-.
  - block_prologue Hblock Hty. by rewrite Htitle.
Qed.

(** Every element of a loop that returned has had its turn, in a state
    from which the final one evolved. *)
Lemma for_each_reaches {A B} (f : A → M (list B)) items :
  (∀ x, preserves (f x)) →
  ∀ st ys st',
    for_each f items st = (Ok ys, st') →
    ∀ x, x ∈ items →
      ∃ s1 r s2, f x s1 = (Ok r, s2) ∧ evolves s2 st'.
Proof.
  intros Hf. induction items as [|x0 items IH]; intros st ys st' H x Hx.
  - by apply elem_of_nil in Hx.
  - cbn [for_each] in H. run_inv H.
    apply elem_of_cons in Hx as [->|Hx].
    + exists st, a, st0. split; [done|].
      pose proof (preserves_for_each f items Hf st0) as Hrest.
      by rewrite Hm0 in Hrest.
    + by eapply IH.
Qed.

(** A toggle, column_list or column block that rendered has run the
    loop over its children, and ends in the state the loop left. *)
Lemma process_block_children fuel url root blocks id block_data block ty
    st lines st' :
  holds_block block_data block →
  Py.field block "type" VNone = VStr ty →
  ty ∈ ["toggle"; "column_list"; "column"] →
  process_block ext (S fuel) url root blocks id block_data st
  = (Ok lines, st') →
  ∃ ys,
    render_children ext fuel url root blocks
      (Py.field block "content" (VList [])) st
    = (Ok ys, st').
Proof.
  intros Hblock Hty Hin.
  repeat (apply elem_of_cons in Hin as [->|Hin]);
    [| | |by apply elem_of_nil in Hin]; block_prologue Hblock Hty; intros H.
  - apply sbind_Ok in H as (text & s & Ht & H).
    apply lift_Ok in Ht as [_ ->].
    apply sbind_Ok in H as (ys & s' & Hc & H).
    apply sret_Ok in H as [_ ->]. by exists ys.
  - apply sbind_Ok in H as (ys & s' & Hc & H). exists ys.
    destruct ys; apply sret_Ok in H as [_ ->]; exact Hc.
  - apply sbind_Ok in H as (ys & s' & Hc & H). exists ys.
    destruct ys; apply sret_Ok in H as [_ ->]; exact Hc.
Qed.

(** The turn of one child in a children loop that returned. *)
Lemma render_children_turn fuel url root blocks content_ids child_ids
    child_id id block_data st ys st' :
  Py.iter content_ids = Ok child_ids →
  child_id ∈ child_ids →
  find_block blocks child_id = Ok (Some (id, block_data)) →
  render_children ext fuel url root blocks content_ids st = (Ok ys, st') →
  ∃ s1 lines s2,
    process_block ext fuel url root blocks id block_data s1 = (Ok lines, s2)
    ∧ evolves s2 st'.
Proof.
  intros Hiter Hin Hfind H. unfold render_children in H.
  rewrite Hiter, sbind_lift_Ok in H.
  eapply for_each_reaches in H as (s1 & lines & s2 & Hturn & Hlater);
    [|clear; intros child_id|exact Hin].
  - cbv beta in Hturn. rewrite Hfind, sbind_lift_Ok in Hturn.
    by exists s1, lines, s2.
  - apply preserves_sbind; [apply preserves_lift|].
    intros [[id block_data]|]; [|apply preserves_sret].
    apply (methods_preserve ext fuel).
Qed.

(** Every page block rendered by a children loop that returned is in the
    registry when the loop returns. *)
Lemma render_children_registers blocks content_ids id block :
  rendered blocks content_ids id block →
  Py.field block "type" VNone = VStr "page" →
  ∀ fuel url root st ys st',
    render_children ext fuel url root blocks content_ids st = (Ok ys, st') →
    id ∈ map fst (page_data st').
Proof.
  intros Hrendered Hpage.
  induction Hrendered
    as [content_ids child_ids child_id id block_data block Hiter Hin Hfind
          Hblock
       |content_ids child_ids child_id parent_id parent_data parent ty id
          block Hiter Hin Hfind Hparent Hty Hkind Hbelow IH];
    intros fuel url root st ys st' H.
  - destruct (render_children_turn _ _ _ _ _ _ _ _ _ _ _ _ Hiter Hin Hfind H)
      as (s1 & lines & s2 & Hturn & Hlater).
    destruct (evolves_registry _ _ Hlater) as [more ->].
    apply elem_of_app. left. by eapply process_block_page_registers.
  - destruct (render_children_turn _ _ _ _ _ _ _ _ _ _ _ _ Hiter Hin Hfind H)
      as (s1 & lines & s2 & Hturn & Hlater).
    destruct (evolves_registry _ _ Hlater) as [more ->].
    apply elem_of_app. left.
    destruct fuel as [|fuel]; [by cbn in Hturn|].
    destruct (process_block_children _ _ _ _ _ _ _ _ _ _ _
                Hparent Hty Hkind Hturn) as (zs & Hchildren).
    by eapply IH.
Qed.

(** An extraction that returned a page has located the root, read its
    content and rendered it; the page blocks rendered are among the
    [subpages] it returns. *)
Lemma extract_page_content_rendered fuel url data st page st' :
  extract_page_content ext fuel url data st = (Ok (Some page), st') →
  ∃ record_map blocks root_page_id root_block content_ids,
    Py.getitem data "recordMap" = Ok record_map
    ∧ Py.getitem record_map "block" = Ok (VDict blocks)
    ∧ locate_root data blocks = Ok root_page_id
    ∧ (let? entry := Py.dict_get blocks root_page_id (VDict []) in
       inner_value entry) = Ok root_block
    ∧ Py.get root_block "content" (VList []) = Ok content_ids
    ∧ ∀ id block,
        rendered blocks content_ids id block →
        Py.field block "type" VNone = VStr "page" →
        id ∈ subpages page.
Proof.
  destruct fuel as [|fuel]; [by intros [=]|].
  cbn [extract_page_content]. intros H. run_inv H; try discriminate.
  all: try (by apply no_block_table_raises in H).
  injection H as ->. cbn [subpages].
  do 5 eexists. repeat (split; [eassumption|]).
  intros id block Hrendered Hpage.
  eapply render_children_registers; [exact Hrendered|exact Hpage|].
  unfold render_children.
  match goal with Hiter : Py.iter _ = Ok _ |- _ => rewrite Hiter end.
  rewrite sbind_lift_Ok. eassumption.
Qed.

End Registry.

(** C2, as amended: the [subpages] of an extracted page are the keys of
    the converter's page registry as it stands when the page has been
    rendered.  The identifiers registered by the pages extracted before come
    first, in the order of their registration; and the identifier of every
    page block rendered for this page, in the content of its root or below
    a toggle, column_list or column block of it, is among them, because
    rendering a page block registers its identifier. *)
Theorem subpages_are_the_registry_keys (ext : externals) :
  (∀ fuel url data st page st',
     extract_page_content ext fuel url data st = (Ok (Some page), st') →
     subpages page = map fst (page_data st')
     ∧ (map fst (page_data st)) `prefix_of` (subpages page)
     ∧ ∃ record_map blocks root_page_id root_block content_ids,
         Py.getitem data "recordMap" = Ok record_map
         ∧ Py.getitem record_map "block" = Ok (VDict blocks)
         ∧ locate_root data blocks = Ok root_page_id
         ∧ (let? entry := Py.dict_get blocks root_page_id (VDict []) in
            inner_value entry) = Ok root_block
         ∧ Py.get root_block "content" (VList []) = Ok content_ids
         ∧ ∀ id block,
             rendered blocks content_ids id block →
             Py.field block "type" VNone = VStr "page" →
             id ∈ subpages page)
  ∧ (∀ fuel url root blocks id block_data block st lines st',
       holds_block block_data block →
       Py.field block "type" VNone = VStr "page" →
       process_block ext fuel url root blocks id block_data st
       = (Ok lines, st') →
       id ∈ map fst (page_data st')
       ∧ (map fst (page_data st)) `prefix_of` (map fst (page_data st'))).
Proof.
  split.
  - intros fuel url data st page st' H.
    pose proof (extract_page_content_subpages ext _ _ _ _ _ _ H) as Hsub.
    split; [done|]. split; [|by eapply extract_page_content_rendered].
    rewrite Hsub.
    pose proof (methods_preserve ext fuel) as (_ & Hextract & _).
    specialize (Hextract url data st). rewrite H in Hextract.
    apply Hextract.
  - intros fuel url root blocks id block_data block st lines st' Hb Hty H.
    split; [by eapply process_block_page_registers|].
    pose proof (methods_preserve ext fuel) as (Hblock & _ & _).
    specialize (Hblock url root blocks id block_data st).
    rewrite H in Hblock. apply Hblock.
Qed.

Lemma subpages_are_the_registry_keys_witness :
  let ext := example_externals pair_site in
  let st := init "out" false in
  let page := {| title := "A"; content := "[B](./B/B.md)";
                 subpages := ["b"] |} in
  let st' := register_page "b"
               {| info_title := "B"; info_parent_id := VStr "a" |} st in
  subpages page = map fst (page_data st')
  ∧ (map fst (page_data st)) `prefix_of` (subpages page)
  ∧ ∃ record_map blocks root_page_id root_block content_ids,
      Py.getitem (pair_site url_A) "recordMap" = Ok record_map
      ∧ Py.getitem record_map "block" = Ok (VDict blocks)
      ∧ locate_root (pair_site url_A) blocks = Ok root_page_id
      ∧ (let? entry := Py.dict_get blocks root_page_id (VDict []) in
         inner_value entry) = Ok root_block
      ∧ Py.get root_block "content" (VList []) = Ok content_ids
      ∧ ∀ id block,
          rendered blocks content_ids id block →
          Py.field block "type" VNone = VStr "page" →
          id ∈ subpages page.
Proof.
  intros ext st page st'.
  exact (proj1 (subpages_are_the_registry_keys ext) 2 url_A (pair_site url_A)
           st page st' eq_refl).
Defined.

(** The page block of B in the content of A is one of the blocks rendered
    for A. *)
Lemma page_block_of_pair_site_is_rendered :
  rendered [("a", page_entry "A" ["b"]); ("b", page_entry "B" [])]
    (VList [VStr "b"]) "b" (block_of "page" "B" []).
Proof.
  eapply (rendered_child _ _ [VStr "b"] (VStr "b")).
  - reflexivity.
  - apply elem_of_cons. by left.
  - reflexivity.
  - apply holds_block_entry.
Qed.

(** C2 as stated fails: page B holds one paragraph and no page block, yet
    its [subpages] list B itself, registered while its parent A was
    rendered. *)
Lemma subpages_carry_earlier_pages :
  (process_page (example_externals pair_site) 9 url_A "" true true
     (init "out" false)).1
  = Ok [{| title := "A"; content := "[B](./B/B.md)"; subpages := ["b"] |};
        {| title := "B"; content := "hello"; subpages := ["b"] |}].
Proof. by vm_compute. Qed.

(** C6, as amended: in single-file mode a page block is rendered by a
    nested visit of the subpage, made at once with [save_content=False] and
    [recursive=False]; the body of the page it returns is inlined under a
    heading that is the title of the page block, and no link is emitted.
    [recursive=False] keeps the nested visit from walking its own list of
    subpages, so it returns one page at most.  It does not bound the depth
    of inlining: the mode is a setting of the converter that no method
    changes, and wherever a page block renders in that mode, inside an
    inlined subpage too, its subpage has been visited. *)
Theorem single_mode_inlines_at_every_depth (ext : externals) (fuel : nat)
    (url : string) (root : value) (blocks : dict) (id : string)
    (block_data : value) (block : dict) (st : converter) :
  holds_block block_data block →
  Py.field block "type" VNone = VStr "page" →
  single_mode st = true →
  (∀ page_title,
     formatted_title ext (Py.field block "properties" (VDict []))
     = Ok page_title →
     process_block ext (S fuel) url root blocks id block_data st
     = let info := {| info_title := page_title; info_parent_id := root |} in
       match process_page ext fuel (subpage_url_of ext url page_title id) ""
               false false st with
       | (Ok (first :: _), st') =>
           (Ok ["# " +:+ page_title; content first],
            register_page id info st')
       | (Ok [], st') => (Ok [], register_page id info st')
       | (Raise e, st') => (Raise e, st')
       end)
  ∧ (∀ fuel' url' parent_path save_content pages st',
       process_page ext fuel' url' parent_path save_content false st
       = (Ok pages, st') →
       (length pages ≤ 1)%nat ∧ single_mode st' = true)
  ∧ (∀ lines st',
       process_block ext fuel url root blocks id block_data st
       = (Ok lines, st') →
       ∃ page_title,
         formatted_title ext (Py.field block "properties" (VDict []))
         = Ok page_title
         ∧ subpage_url_of ext url page_title id ∈ visited_pages st').
Proof.
  intros Hblock Hty Hsingle. split; [|split].
  - intros page_title Htitle. by eapply process_block_page_single.
  - intros fuel' url' parent_path save_content pages st' H.
    split; [by eapply process_page_not_recursive|].
    pose proof (process_page_evolves ext fuel' url' parent_path save_content
                  false st) as Hev.
    rewrite H in Hev. destruct Hev as [_ Hmode _ _ _ _]. cbn in Hmode.
    congruence.
  - intros lines st' H. by eapply process_block_page_visits.
Qed.

(** C6 as stated fails: in single-file mode A inlines B, and the page
    block C inside B's content is fetched and inlined in its turn. *)
Lemma nested_page_block_is_fetched :
  let run := process_page (example_externals chain_site) 12 url_A "" true
               false (init "out" true) in
  run.1 = Ok [{| title := "A";
                 content := String.concat (nl +:+ nl) ["# B"; "# C"; "leaf"];
                 subpages := ["c"; "b"] |}]
  ∧ downloads run.2 = [url_A; url_B; url_C].
Proof. by vm_compute. Qed.

Lemma single_mode_inlines_at_every_depth_witness :
  let ext := example_externals chain_site in
  let blocks := [("a", page_entry "A" ["b"]); ("b", page_entry "B" [])] in
  (process_block ext 9 url_A (VStr "a") blocks "b" (page_entry "B" [])
     (init "out" true)).1
  = Ok ["# B"; String.concat (nl +:+ nl) ["# C"; "leaf"]].
Proof.
  intros ext blocks.
  rewrite (proj1 (single_mode_inlines_at_every_depth ext 8 url_A (VStr "a")
                    blocks "b" (page_entry "B" []) (block_of "page" "B" [])
                    (init "out" true) (holds_block_entry _) eq_refl eq_refl)
             "B" eq_refl).
  by vm_compute.
Defined.

(** * More of the code *)

(** ** [download_page]: the retry loop *)

Section DownloadFacts.

Context (requests_get : nat → string → Http.response).
Implicit Types (fuel max_retries retries delay k : nat) (url : string).

Lemma gets_schedule url delay k :
  gets (schedule url delay k) = replicate (S k) url.
Proof.
  revert delay. induction k as [|k IH]; intros delay; [done|].
  cbn [schedule gets replicate]. by rewrite IH.
Qed.

Lemma sleeps_schedule url delay k :
  sleeps (schedule url delay k) = map (λ i, delay * 2 ^ i) (seq 0 k).
Proof.
  revert delay. induction k as [|k IH]; intros delay; [done|].
  cbn [schedule sleeps seq map]. rewrite IH. f_equal; [cbn; lia|].
  rewrite <- seq_shift, map_map. apply map_ext. intros i.
  cbn [Nat.pow]. lia.
Qed.

Lemma sum_sleeps_schedule url delay k :
  list_sum (sleeps (schedule url delay k)) = delay * (2 ^ k - 1).
Proof.
  revert delay. induction k as [|k IH]; intros delay; [cbn; lia|].
  cbn [schedule sleeps].
  change (list_sum (?a :: ?l)) with (a + list_sum l). rewrite IH.
  cbn [Nat.pow].
  assert (1 ≤ 2 ^ k)%nat by (apply Nat.neq_0_lt_0, Nat.pow_nonzero; lia).
  nia.
Qed.

(** The loop from [retries], when the next [k] requests raise
    RequestException and the one after them does anything else, or is the
    last one allowed. *)
Lemma attempts_schedule k : ∀ fuel url max_retries retries delay,
  (∀ i, (i < k)%nat →
        requests_get (retries + i) url = Http.RequestException) →
  (retries + k < max_retries)%nat →
  (max_retries - retries ≤ fuel)%nat →
  Http.attempts requests_get fuel url max_retries retries delay
  = (match requests_get (retries + k) url with
     | Http.Text body => Some body
     | _ => None
     end, schedule url delay k)
  ∨ (requests_get (retries + k) url = Http.RequestException
     ∧ (S (retries + k) < max_retries)%nat).
Proof.
  induction k as [|k IH]; intros fuel url max_retries retries delay
    Hfail Hlt Hfuel.
  - destruct fuel as [|fuel]; [lia|]. cbn [Http.attempts schedule].
    rewrite Nat.add_0_r in *.
    rewrite (proj2 (Nat.ltb_lt _ _)) by lia.
    destruct (requests_get retries url) eqn:Hget; [by left|..|by left].
    destruct (Nat.ltb_spec (S retries) max_retries); [by right|by left].
  - destruct fuel as [|fuel]; [lia|]. cbn [Http.attempts schedule].
    rewrite (proj2 (Nat.ltb_lt _ _)) by lia.
    rewrite <- (Nat.add_0_r retries) at 1. rewrite Hfail by lia.
    rewrite (proj2 (Nat.ltb_lt _ _)) by lia.
    destruct (IH fuel url max_retries (S retries) (delay * 2)) as [Heq|Hmore].
    + intros i Hi. replace (S retries + i) with (retries + S i) by lia.
      apply Hfail. lia.
    + lia.
    + lia.
    + left. rewrite Heq. by replace (S retries + k) with (retries + S k) by lia.
    + right. by replace (retries + S k) with (S retries + k) by lia.
Qed.

(** Whatever the server does, the loop that may still run makes the
    requests and sleeps of some schedule that fits in what is left. *)
Lemma attempts_some_schedule fuel : ∀ url max_retries retries delay,
  (retries < max_retries)%nat →
  (max_retries - retries ≤ fuel)%nat →
  ∃ k, (retries + k < max_retries)%nat
       ∧ (Http.attempts requests_get fuel url max_retries retries delay).2
         = schedule url delay k.
Proof.
  induction fuel as [|fuel IH]; intros url max_retries retries delay Hlt Hfuel;
    [lia|].
  cbn [Http.attempts]. rewrite (proj2 (Nat.ltb_lt _ _)) by lia.
  destruct (requests_get retries url).
  - exists 0. split; [lia|done].
  - destruct (Nat.ltb_spec (S retries) max_retries) as [Hmore|Hlast].
    + destruct (IH url max_retries (S retries) (delay * 2)) as (k & Hk & Heq);
        [lia..|].
      exists (S k). split; [lia|].
      destruct (Http.attempts _ _ _ _ _ _) as [result events].
      cbn [snd] in *. by rewrite Heq.
    + exists 0. split; [lia|done].
  - exists 0. split; [lia|done].
Qed.

End DownloadFacts.

(** X1: [download_page] stops at the first request that does not raise a
    RequestException.  When the first [k] requests raise it and request
    [k] is within [max_retries] and does not, the call returns the text of
    that response, or None when it raised another exception, after [k + 1]
    requests of the URL with sleeps of [retry_delay], twice that, and so
    on between them, and none after the last. *)
Theorem download_page_stops_at_first_answer
    (requests_get : nat → string → Http.response) (url : string)
    (max_retries retry_delay k : nat) :
  (∀ i, (i < k)%nat → requests_get i url = Http.RequestException) →
  requests_get k url ≠ Http.RequestException →
  (k < max_retries)%nat →
  Http.download_page requests_get url max_retries retry_delay
  = (match requests_get k url with
     | Http.Text body => Some body
     | _ => None
     end, schedule url retry_delay k)
  ∧ gets (schedule url retry_delay k) = replicate (S k) url
  ∧ sleeps (schedule url retry_delay k)
    = map (λ i, retry_delay * 2 ^ i) (seq 0 k).
Proof.
  intros Hfail Hanswer Hlt. split; [|split].
  - unfold Http.download_page.
    destruct (attempts_schedule requests_get k max_retries url max_retries 0
                retry_delay) as [Heq|[Hre _]]; [done|lia|lia|done|done].
  - apply gets_schedule.
  - apply sleeps_schedule.
Qed.

Lemma download_page_stops_at_first_answer_witness :
  let server := λ (n : nat) (_ : string),
    if (n =? 2)%nat then Http.Text "page" else Http.RequestException in
  Http.download_page server "u" 3 2
  = (Some "page",
     [Http.Get "u"; Http.Sleep 2; Http.Get "u"; Http.Sleep 4; Http.Get "u"]).
Proof.
  intros server.
  refine (proj1 (download_page_stops_at_first_answer server "u" 3 2 2 _ _ _)).
  - intros [|[|i]] Hi; [reflexivity|reflexivity|lia].
  - discriminate.
  - lia.
Defined.

(** X2: when every request raises a RequestException, [download_page]
    returns None after exactly [max_retries] requests; it sleeps between
    them only, [retry_delay * (2 ^ (max_retries - 1) - 1)] seconds in
    all. *)
Theorem download_page_gives_up
    (requests_get : nat → string → Http.response) (url : string)
    (max_retries retry_delay : nat) :
  (0 < max_retries)%nat →
  (∀ i, (i < max_retries)%nat →
        requests_get i url = Http.RequestException) →
  let run := Http.download_page requests_get url max_retries retry_delay in
  run = (None, schedule url retry_delay (max_retries - 1))
  ∧ gets run.2 = replicate max_retries url
  ∧ length (sleeps run.2) = (max_retries - 1)%nat
  ∧ list_sum (sleeps run.2) = retry_delay * (2 ^ (max_retries - 1) - 1).
Proof.
  intros Hpos Hfail run.
  assert (run = (None, schedule url retry_delay (max_retries - 1))) as Hrun.
  { unfold run, Http.download_page.
    destruct (attempts_schedule requests_get (max_retries - 1) max_retries url
                max_retries 0 retry_delay) as [Heq|[_ Hmore]];
      [intros i Hi; apply Hfail; lia|lia|lia| |cbn in Hmore; lia].
    rewrite Heq. cbn [plus]. by rewrite Hfail by lia. }
  rewrite Hrun. cbn [snd]. split; [done|].
  rewrite gets_schedule, sum_sleeps_schedule, sleeps_schedule.
  replace (S (max_retries - 1)) with max_retries by lia.
  split; [done|]. split; [|done].
  by rewrite length_map, length_seq.
Qed.

Lemma download_page_gives_up_witness :
  let run := Http.download_page (λ _ _, Http.RequestException) "u" 3 2 in
  run = (None,
         [Http.Get "u"; Http.Sleep 2; Http.Get "u"; Http.Sleep 4; Http.Get "u"])
  ∧ list_sum (sleeps run.2) = 6.
Proof.
  intros run.
  destruct (download_page_gives_up (λ _ _, Http.RequestException) "u" 3 2
              ltac:(lia) ltac:(reflexivity)) as (Hrun & _ & _ & Hsum).
  split; [exact Hrun|exact Hsum].
Defined.

(** X3: whatever the server answers, [download_page] makes at least one
    and at most [max_retries] requests, all of the given URL, and one sleep
    less than requests, each twice as long as the one before; with
    [max_retries = 0] it returns None without a request. *)
Theorem download_page_is_bounded
    (requests_get : nat → string → Http.response) (url : string)
    (max_retries retry_delay : nat) :
  let run := Http.download_page requests_get url max_retries retry_delay in
  (max_retries = 0 → run = (None, []))
  ∧ ((0 < max_retries)%nat →
     ∃ k, (k < max_retries)%nat
          ∧ gets run.2 = replicate (S k) url
          ∧ sleeps run.2 = map (λ i, retry_delay * 2 ^ i) (seq 0 k)).
Proof.
  intros run. split.
  - intros ->. reflexivity.
  - intros Hpos.
    destruct (attempts_some_schedule requests_get max_retries url max_retries
                0 retry_delay) as (k & Hk & Heq); [lia..|].
    exists k. split; [lia|]. unfold run, Http.download_page. rewrite Heq.
    split; [apply gets_schedule|apply sleeps_schedule].
Qed.

Lemma download_page_is_bounded_witness :
  let run := Http.download_page (λ _ _, Http.OtherException) "u" 3 2 in
  ∃ k, (k < 3)%nat
       ∧ gets run.2 = replicate (S k) "u"
       ∧ sleeps run.2 = map (λ i, 2 * 2 ^ i) (seq 0 k).
Proof.
  intros run.
  exact (proj2 (download_page_is_bounded (λ _ _, Http.OtherException) "u" 3 2)
           ltac:(lia)).
Defined.

(** ** [extract_json_data]: the payload among the scripts *)

Lemma before_last_app (c : Ascii.ascii) (s tail : string) :
  occurs c tail = false →
  Payload.before_last c (s +:+ String c tail) = Some s.
Proof.
  intros Htail.
  assert (Payload.before_last c tail = None) as Hnone.
  { induction tail as [|a tail IH]; [done|]. cbn [occurs] in Htail.
    apply orb_false_iff in Htail as [Ha Htail]. cbn [Payload.before_last].
    by rewrite IH, Ha. }
  induction s as [|a s IH]; simpl.
  - by rewrite Hnone, Ascii.eqb_refl.
  - by rewrite IH.
Qed.

Lemma string_app_assoc (a b c : string) : (a +:+ b) +:+ c = a +:+ b +:+ c.
Proof.
  induction a as [|x a IH]; [done|]. exact (f_equal (String x) IH).
Qed.

Lemma strip_prefix_Some_app (p s r x : string) :
  Payload.strip_prefix p s = Some r →
  Payload.strip_prefix p (s +:+ x) = Some (r +:+ x).
Proof.
  revert s. induction p as [|a p IH]; intros s; simpl.
  - by intros [= ->].
  - destruct s as [|b s]; [done|]. simpl.
    destruct (Ascii.eqb a b); [apply IH|done].
Qed.

Lemma strip_prefix_Some_length (p s r : string) :
  Payload.strip_prefix p s = Some r → (String.length p ≤ String.length s)%nat.
Proof.
  revert s. induction p as [|a p IH]; intros s; simpl; [lia|].
  destruct s as [|b s]; [done|]. simpl.
  destruct (Ascii.eqb a b); [|done]. intros H%IH. lia.
Qed.

Lemma strip_prefix_None_app (p s x : string) :
  (String.length p ≤ String.length s)%nat →
  Payload.strip_prefix p s = None →
  Payload.strip_prefix p (s +:+ x) = None.
Proof.
  revert s. induction p as [|a p IH]; intros s; simpl; [done|].
  destruct s as [|b s]; simpl; [lia|].
  destruct (Ascii.eqb a b); [|done]. intros Hlen. apply IH. lia.
Qed.

Lemma after_first_Some_length (sep s r : string) :
  Payload.after_first sep s = Some r →
  (String.length sep ≤ String.length s)%nat.
Proof.
  induction s as [|a s IH]; simpl.
  - destruct (Payload.strip_prefix sep "") eqn:E; [|done].
    intros _. by apply strip_prefix_Some_length in E.
  - destruct (Payload.strip_prefix sep (String a s)) eqn:E.
    + intros _. by apply strip_prefix_Some_length in E.
    + intros H%IH. lia.
Qed.

(** Text added at the end does not move the first occurrence. *)
Lemma after_first_app (sep s r x : string) :
  Payload.after_first sep s = Some r →
  Payload.after_first sep (s +:+ x) = Some (r +:+ x).
Proof.
  induction s as [|a s IH].
  - simpl. destruct (Payload.strip_prefix sep "") eqn:E; [|done].
    intros [= ->]. destruct sep; [|done]. injection E as <-.
    by destruct x.
  - intros H. pose proof H as Hlen%after_first_Some_length.
    cbn [Payload.after_first] in H.
    assert (Payload.after_first sep (String a s +:+ x)
            = match Payload.strip_prefix sep (String a s +:+ x) with
              | Some rest => Some rest
              | None => Payload.after_first sep (s +:+ x)
              end) as -> by reflexivity.
    destruct (Payload.strip_prefix sep (String a s)) eqn:E.
    + injection H as ->.
      by rewrite (strip_prefix_Some_app sep (String a s) r x E).
    + rewrite strip_prefix_None_app by done. by apply IH.
Qed.

(** The cut is exact: when the marker first occurs after [before], what
    stands between it and the last parenthesis comes out. *)
Lemma json_str_of_call (before json tail : string) :
  Payload.after_first Payload.marker_comma (before +:+ Payload.marker_comma)
  = Some "" →
  occurs ")"%char tail = false →
  Payload.json_str_of
    (before +:+ Payload.marker_comma +:+ json +:+ ")" +:+ tail)
  = Ok json.
Proof.
  intros Hfirst Htail. unfold Payload.json_str_of.
  rewrite <- string_app_assoc.
  rewrite (after_first_app _ _ "" _ Hfirst).
  unfold Payload.rsplit_head.
  change ("" +:+ json +:+ ")" +:+ tail) with (json +:+ String ")"%char tail).
  by rewrite before_last_app.
Qed.

Lemma is_substring_app (sub s x : string) :
  Py.is_substring sub s = true → Py.is_substring sub (s +:+ x) = true.
Proof.
  assert (∀ p t, String.prefix p t = true → String.prefix p (t +:+ x) = true)
    as Hprefix.
  { induction p as [|a p IH]; intros t.
    - intros _. by destruct t, x.
    - destruct t as [|b t]; [done|]. simpl.
      destruct (Ascii.ascii_dec a b); [apply IH|done]. }
  induction s as [|a s IH].
  - destruct sub as [|b sub]; [by destruct x|done].
  - intros H.
    assert (Py.is_substring sub (String a s +:+ x)
            = if String.prefix sub (String a s +:+ x) then true
              else Py.is_substring sub (s +:+ x)) as -> by reflexivity.
    cbn [Py.is_substring] in H.
    destruct (String.prefix sub (String a s)) eqn:E.
    + by rewrite Hprefix.
    + rewrite (IH H). by destruct (String.prefix sub (String a s +:+ x)).
Qed.

Section PayloadFacts.

Context (json_loads : string → option value).

Lemma extract_json_data_passes_over skipped rest :
  Forall (passed_over json_loads) skipped →
  Payload.extract_json_data json_loads (skipped ++ rest)
  = Payload.extract_json_data json_loads rest.
Proof.
  induction 1 as [|script skipped Hskip _ IH]; [done|].
  cbn [app Payload.extract_json_data]. rewrite IH.
  destruct script as [s|]; [|done].
  destruct Hskip as [->|[Hno|(json_str & Hcut & Hparse)]].
  - done.
  - rewrite Hno. by rewrite andb_false_r.
  - rewrite Hcut. cbn [obind]. rewrite Hparse.
    by destruct (negb (s =? "") && Py.is_substring Payload.marker s).
Qed.

Lemma strip_prefix_prefix (p q s r : string) :
  Payload.strip_prefix (p +:+ q) s = Some r → String.prefix p s = true.
Proof.
  revert s. induction p as [|a p IH]; intros s; [by destruct s|].
  destruct s as [|b s]; [done|]. simpl.
  destruct (Ascii.eqb_spec a b) as [->|Hne]; [|done].
  destruct (Ascii.ascii_dec b b); [apply IH|done].
Qed.

Lemma after_first_is_substring (p q s r : string) :
  Payload.after_first (p +:+ q) s = Some r → Py.is_substring p s = true.
Proof.
  induction s as [|a s IH]; cbn [Payload.after_first Py.is_substring].
  - destruct (Payload.strip_prefix (p +:+ q) "") eqn:E; [|done].
    intros _. by rewrite (strip_prefix_prefix _ _ _ _ E).
  - destruct (Payload.strip_prefix (p +:+ q) (String a s)) eqn:E.
    + intros _. by rewrite (strip_prefix_prefix _ _ _ _ E).
    + intros H%IH. rewrite H. by destruct (String.prefix p (String a s)).
Qed.

End PayloadFacts.

(** X4: [extract_json_data] returns the payload of the first script that
    carries one.  Tags without a string, without the marker, or whose cut
    does not parse are passed over; in the first script where the marker,
    comma included, occurs, the text between its first occurrence and the
    last closing parenthesis is what [json.loads] is given, and what it
    returns is the result.  When every tag is passed over the result is
    None. *)
Theorem extract_json_data_first_payload
    (json_loads : string → option value)
    (skipped rest : list (option string))
    (before json tail : string) (data : value) :
  Forall (passed_over json_loads) skipped →
  Payload.after_first Payload.marker_comma (before +:+ Payload.marker_comma)
  = Some "" →
  occurs ")"%char tail = false →
  json_loads json = Some data →
  Payload.extract_json_data json_loads
    (skipped
     ++ Some (before +:+ Payload.marker_comma +:+ json +:+ ")" +:+ tail)
     :: rest)
  = Ok data
  ∧ Payload.extract_json_data json_loads skipped = Ok VNone.
Proof.
  intros Hskipped Hfirst Htail Hdata. split.
  - rewrite extract_json_data_passes_over by done.
    cbn [Payload.extract_json_data].
    rewrite json_str_of_call by done. cbn [obind]. rewrite Hdata.
    assert (Py.is_substring Payload.marker
              (before +:+ Payload.marker_comma +:+ json +:+ ")" +:+ tail)
            = true) as ->.
    { rewrite <- string_app_assoc. apply is_substring_app.
      by eapply (after_first_is_substring Payload.marker ","). }
    assert (before +:+ Payload.marker_comma +:+ json +:+ ")" +:+ tail ≠ "")
      as Hne by (by destruct before).
    apply String.eqb_neq in Hne. by rewrite Hne.
  - rewrite <- (app_nil_r skipped).
    by rewrite extract_json_data_passes_over.
Qed.

Lemma extract_json_data_first_payload_witness :
  let json_loads := λ s : string,
    if String.eqb s "{}" then Some (VDict []) else None in
  Payload.extract_json_data json_loads
    [None; Some "var x = 1;";
     Some ("window." +:+ Payload.marker_comma +:+ "{}" +:+ ")" +:+ ";");
     Some "never read"]
  = Ok (VDict []).
Proof.
  intros json_loads.
  refine (proj1 (extract_json_data_first_payload json_loads
                   [None; Some "var x = 1;"] [Some "never read"]
                   "window." "{}" ";" (VDict []) _ _ _ _)).
  - constructor; [exact I|].
    constructor; [right; left; reflexivity|]. constructor.
  - reflexivity.
  - reflexivity.
  - reflexivity.
Defined.

(** X5: the test for the marker leaves out the comma that the split
    needs.  A script in which the marker occurs but is nowhere followed at
    once by a comma makes [extract_json_data] raise IndexError, whatever
    the scripts after it hold. *)
Theorem extract_json_data_marker_without_comma
    (json_loads : string → option value)
    (skipped rest : list (option string)) (s : string) :
  Forall (passed_over json_loads) skipped →
  Py.is_substring Payload.marker s = true →
  Payload.after_first Payload.marker_comma s = None →
  Payload.extract_json_data json_loads (skipped ++ Some s :: rest)
  = Raise IndexError.
Proof.
  intros Hskipped Hmarker Hcomma.
  rewrite extract_json_data_passes_over by done.
  cbn [Payload.extract_json_data]. rewrite Hmarker.
  assert (s ≠ "") as Hne by (by intros ->).
  apply String.eqb_neq in Hne. rewrite Hne. cbn [negb andb].
  unfold Payload.json_str_of. by rewrite Hcomma.
Qed.

Lemma extract_json_data_marker_without_comma_witness :
  let json_loads := λ s : string,
    if String.eqb s "{}" then Some (VDict []) else None in
  Payload.extract_json_data json_loads
    [Some (Payload.marker +:+ " , {})");
     Some (Payload.marker_comma +:+ "{})")]
  = Raise IndexError.
Proof.
  intros json_loads.
  refine (extract_json_data_marker_without_comma json_loads []
            [Some (Payload.marker_comma +:+ "{})")]
            (Payload.marker +:+ " , {})") _ _ _).
  - constructor.
  - reflexivity.
  - reflexivity.
Defined.

(** ** [extract_page_id] *)

Lemma split_on_cons (c : Ascii.ascii) (s : string) :
  ∃ part parts, split_on c s = part :: parts.
Proof.
  induction s as [|a s (part & parts & IH)]; [by eexists _, _|].
  cbn [split_on]. destruct (Ascii.eqb a c); [by eexists _, _|].
  rewrite IH. by eexists _, _.
Qed.

Lemma split_on_without (c : Ascii.ascii) (s : string) :
  occurs c s = false → split_on c s = [s].
Proof.
  induction s as [|a s IH]; [done|]. cbn [occurs split_on]. intros H.
  apply orb_false_iff in H as [-> Hs]. by rewrite IH.
Qed.

Lemma split_on_with (c : Ascii.ascii) (s : string) :
  occurs c s = true → ∃ part p parts, split_on c s = part :: p :: parts.
Proof.
  induction s as [|a s IH]; [done|]. cbn [occurs split_on].
  destruct (Ascii.eqb a c).
  - intros _. destruct (split_on_cons c s) as (part & parts & ->).
    by eexists _, _, _.
  - intros (part & p & parts & ->)%IH. by eexists _, _, _.
Qed.

Lemma last_part_cons (c a : Ascii.ascii) (s : string) :
  last_part c (String a s)
  = if Ascii.eqb a c then last_part c s
    else if occurs c s then last_part c s else String a s.
Proof.
  unfold last_part. cbn [split_on].
  destruct (Ascii.eqb a c).
  - by destruct (split_on_cons c s) as (part & parts & ->).
  - destruct (occurs c s) eqn:Hs.
    + by destruct (split_on_with c s Hs) as (part & p & parts & ->).
    + by rewrite split_on_without.
Qed.

Lemma last_part_without (c : Ascii.ascii) (t : string) :
  occurs c t = false → last_part c t = t.
Proof.
  destruct t as [|a t]; [done|]. cbn [occurs]. intros H.
  apply orb_false_iff in H as [Ha Ht]. by rewrite last_part_cons, Ha, Ht.
Qed.

Lemma occurs_app (c : Ascii.ascii) (s t : string) :
  occurs c (s +:+ t) = occurs c s || occurs c t.
Proof.
  induction s as [|a s IH]; [done|].
  change (String a s +:+ t) with (String a (s +:+ t)). cbn [occurs].
  by rewrite IH, orb_assoc.
Qed.

(** Only what follows the last separator counts. *)
Lemma last_part_app_sep (c : Ascii.ascii) (s t : string) :
  last_part c (s +:+ String c t) = last_part c t.
Proof.
  induction s as [|a s IH].
  - change ("" +:+ String c t) with (String c t).
    by rewrite last_part_cons, Ascii.eqb_refl.
  - change (String a s +:+ String c t) with (String a (s +:+ String c t)).
    rewrite last_part_cons, IH, occurs_app. cbn [occurs].
    rewrite Ascii.eqb_refl, orb_true_r. by destruct (Ascii.eqb a c).
Qed.

Lemma last_part_app (c : Ascii.ascii) (s t : string) :
  occurs c t = false → last_part c (s +:+ t) = last_part c s +:+ t.
Proof.
  intros Ht. induction s as [|a s IH].
  - change ("" +:+ t) with t. by rewrite last_part_without.
  - change (String a s +:+ t) with (String a (s +:+ t)).
    rewrite !last_part_cons, IH, occurs_app, Ht, orb_false_r.
    destruct (Ascii.eqb a c); [done|]. by destruct (occurs c s).
Qed.

Lemma occurs_last_part (c : Ascii.ascii) (s : string) :
  occurs c (last_part c s) = false.
Proof.
  induction s as [|a s IH]; [done|]. rewrite last_part_cons.
  destruct (Ascii.eqb a c) eqn:Ha; [done|].
  destruct (occurs c s) eqn:Hs; [done|]. cbn [occurs]. by rewrite Ha, Hs.
Qed.

(** A part holds no character the whole does not hold. *)
Lemma occurs_last_part_other (c d : Ascii.ascii) (s : string) :
  occurs d s = false → occurs d (last_part c s) = false.
Proof.
  induction s as [|a s IH]; [done|]. cbn [occurs]. intros H.
  apply orb_false_iff in H as [Ha Hs]. rewrite last_part_cons.
  destruct (Ascii.eqb a c); [by apply IH|].
  destruct (occurs c s); [by apply IH|]. cbn [occurs]. by rewrite Ha, Hs.
Qed.

Lemma is_substring_char (c : Ascii.ascii) (s : string) :
  Py.is_substring (String c "") s = occurs c s.
Proof.
  induction s as [|a s IH]; [done|]. cbn [Py.is_substring occurs].
  rewrite IH. simpl. destruct (Ascii.ascii_dec c a) as [->|Hne].
  - rewrite Ascii.eqb_refl. by destruct s.
  - apply not_eq_sym, Ascii.eqb_neq in Hne. by rewrite Hne.
Qed.

Lemma chop_trailing_app (c : Ascii.ascii) (s t : string) :
  t ≠ "" → occurs c t = false → chop_trailing c (s +:+ t) = s +:+ t.
Proof.
  intros Hne Ht.
  assert (chop_trailing c t = t) as Hbase.
  { clear Hne. induction t as [|a t IH]; [done|]. cbn [occurs] in Ht.
    apply orb_false_iff in Ht as [Ha Ht]. cbn [chop_trailing].
    destruct t as [|b t]; [by rewrite Ha|]. by rewrite IH. }
  induction s as [|a s IH]; [done|].
  change (String a s +:+ t) with (String a (s +:+ t)).
  cbn [chop_trailing]. rewrite IH.
  destruct (s +:+ t) eqn:E; [|done]. by destruct s, t.
Qed.

Lemma occurs_remove_char (c : Ascii.ascii) (s : string) :
  occurs c (Py.remove_char c s) = false.
Proof.
  induction s as [|a s IH]; [done|]. cbn [Py.remove_char].
  destruct (Ascii.eqb a c) eqn:Ha; [done|]. cbn [occurs]. by rewrite Ha.
Qed.

Lemma occurs_remove_char_other (c d : Ascii.ascii) (s : string) :
  occurs d s = false → occurs d (Py.remove_char c s) = false.
Proof.
  induction s as [|a s IH]; [done|]. cbn [occurs]. intros H.
  apply orb_false_iff in H as [Ha Hs]. cbn [Py.remove_char].
  destruct (Ascii.eqb a c); [by apply IH|]. cbn [occurs].
  by rewrite Ha, IH.
Qed.

(** X6: the identifier [extract_page_id] returns holds neither a slash nor
    a hyphen, whatever the URL. *)
Theorem extract_page_id_is_bare (url_path : string → string) (url : string) :
  occurs "/"%char (extract_page_id url_path url) = false
  ∧ occurs "-"%char (extract_page_id url_path url) = false.
Proof.
  unfold extract_page_id.
  set (page_id := last_part "/"%char (chop_trailing "/"%char (url_path url))).
  assert (occurs "/"%char page_id = false) as Hslash
    by apply occurs_last_part.
  change "-" with (String "-"%char ""). rewrite is_substring_char.
  destruct (occurs "-"%char page_id) eqn:Hhyphen.
  - split; [by apply occurs_last_part_other|apply occurs_last_part].
  - done.
Qed.

(** X7: [extract_page_id] undoes the URL that the converter builds for a
    subpage.  When the path of that URL is the slash, the title, a hyphen
    and the identifier without its hyphens, and the identifier holds no
    slash, the result is the identifier without its hyphens, whatever the
    title. *)
Theorem extract_page_id_of_subpage_url (ext : externals)
    (url_path : string → string) (url page_title page_id : string) :
  url_path (subpage_url_of ext url page_title page_id)
  = "/" +:+ page_title +:+ "-" +:+ Py.remove_char "-"%char page_id →
  occurs "/"%char page_id = false →
  extract_page_id url_path (subpage_url_of ext url page_title page_id)
  = Py.remove_char "-"%char page_id.
Proof.
  intros Hpath Hslash. unfold extract_page_id. rewrite Hpath.
  set (bare := Py.remove_char "-"%char page_id).
  assert (occurs "-"%char bare = false) as Hb1 by apply occurs_remove_char.
  assert (occurs "/"%char bare = false) as Hb2
    by by apply occurs_remove_char_other.
  change ("/" +:+ page_title +:+ "-" +:+ bare)
    with (("/" +:+ page_title) +:+ String "-"%char bare).
  rewrite chop_trailing_app by (done || (cbn [occurs]; by rewrite Hb2)).
  rewrite last_part_app by (cbn [occurs]; by rewrite Hb2).
  change "-" with (String "-"%char ""). rewrite is_substring_char.
  rewrite occurs_app. cbn [occurs]. rewrite Ascii.eqb_refl, orb_true_r.
  by rewrite last_part_app_sep, last_part_without.
Qed.

Lemma extract_page_id_of_subpage_url_witness :
  let ext := example_externals no_site in
  let url_path := λ u : string,
    match Payload.after_first "example.site" u with
    | Some path => path
    | None => ""
    end in
  extract_page_id url_path
    (subpage_url_of ext url_A "Release-notes/2024" "1f2e-3d4c-5b6a")
  = "1f2e3d4c5b6a".
Proof.
  intros ext url_path.
  exact (extract_page_id_of_subpage_url ext url_path url_A
           "Release-notes/2024" "1f2e-3d4c-5b6a" eq_refl eq_refl).
Defined.

(** ** The renderers, branch by branch *)

Section RendererFacts.

Context (ext : externals).
Implicit Types (fuel : nat) (url id : string) (root : value).
Implicit Types (blocks block : dict) (st : converter).

Lemma plain_items_encode (runs : list (string * list RichText.marker)) :
  concat (map plain_item (map RichText.encode_run runs))
  = map (λ r, VStr r.1) runs.
Proof.
  induction runs as [|[text ms] runs IH]; [done|].
  cbn [map concat RichText.encode_run plain_item fst app]. by rewrite IH.
Qed.

Lemma extract_text_from_property_encode
    (runs : list (string * list RichText.marker)) :
  extract_text_from_property (RichText.encode runs)
  = Ok (String.concat "" (map fst runs)).
Proof.
  destruct runs as [|r runs]; [done|].
  unfold extract_text_from_property.
  change (Py.truthy (RichText.encode (r :: runs))) with true.
  unfold RichText.encode. cbn [negb Py.iter obind].
  rewrite plain_items_encode. unfold Py.join.
  by rewrite (strings_of_VStr fst).
Qed.

Lemma process_block_toggle fuel url root blocks id block_data block st :
  holds_block block_data block →
  Py.field block "type" VNone = VStr "toggle" →
  process_block ext (S fuel) url root blocks id block_data st
  = (let* text :=
       lift (formatted_title ext (Py.field block "properties" (VDict []))) in
     let* toggle_content :=
       render_children ext fuel url root blocks
         (Py.field block "content" (VList [])) in
     sret ["<details>" +:+ nl +:+ "<summary>" +:+ text +:+ "</summary>"
           +:+ nl +:+ nl +:+ String.concat (nl +:+ nl) toggle_content
           +:+ nl +:+ "</details>"]) st.
Proof. intros Hblock Hty. block_prologue Hblock Hty. reflexivity. Qed.

Lemma process_block_columns fuel url root blocks id block_data block st ty :
  holds_block block_data block →
  Py.field block "type" VNone = VStr ty →
  ty = "column_list" ∨ ty = "column" →
  process_block ext (S fuel) url root blocks id block_data st
  = (let* column_content :=
       render_children ext fuel url root blocks
         (Py.field block "content" (VList [])) in
     match column_content with
     | [] => sret []
     | _ :: _ => sret [String.concat (nl +:+ nl) column_content]
     end) st.
Proof.
  intros Hblock Hty [->| ->]; block_prologue Hblock Hty; reflexivity.
Qed.

Lemma sbind_ext {A B} (m m' : M A) (k k' : A → M B) st :
  m st = m' st → (∀ a st', k a st' = k' a st') →
  sbind m k st = sbind m' k' st.
Proof.
  intros Hm Hk. unfold sbind. rewrite Hm.
  destruct (m' st) as [[a|e] st']; [apply Hk|done].
Qed.

Lemma for_each_skip {A B} (f : A → M (list B)) before x after :
  (∀ st, f x st = (Ok [], st)) →
  ∀ st, for_each f (before ++ x :: after) st = for_each f (before ++ after) st.
Proof.
  intros Hx. induction before as [|y before IH]; intros st.
  - cbn [app for_each]. unfold sbind at 1. rewrite Hx.
    unfold sbind. by destruct (for_each f after st) as [[zs|e] st'].
  - cbn [app for_each]. apply sbind_ext; [done|]. intros ys st'.
    apply sbind_ext; [apply IH|done].
Qed.

Lemma collect_skip {A B} (f : A → outcome (list B)) before x after :
  f x = Ok [] →
  collect f (before ++ x :: after) = collect f (before ++ after).
Proof.
  intros Hx. induction before as [|y before IH]; cbn [app collect].
  - rewrite Hx. cbn [obind]. by destruct (collect f after).
  - by rewrite IH.
Qed.

Lemma render_children_skip fuel url root blocks before dangling after st :
  Py.lookup blocks dangling = None →
  render_children ext fuel url root blocks
    (VList (before ++ VStr dangling :: after)) st
  = render_children ext fuel url root blocks (VList (before ++ after)) st.
Proof.
  intros Hnone. unfold render_children. cbn [Py.iter].
  rewrite !sbind_lift_Ok. apply for_each_skip. intros st'.
  cbn [find_block]. by rewrite Hnone.
Qed.

Lemma render_table_skip blocks before dangling after :
  Py.lookup blocks dangling = None →
  render_table ext blocks (VList (before ++ VStr dangling :: after))
  = render_table ext blocks (VList (before ++ after)).
Proof.
  intros Hnone. unfold render_table. cbn [Py.iter obind].
  rewrite collect_skip; [done|]. unfold row_cells. cbn [find_block].
  by rewrite Hnone.
Qed.

End RendererFacts.

(** X8: the plain-text extractor returns the texts of the runs, joined, and
    ignores their format markers; on runs without markers the two
    extractors agree.  They differ on an item that is a bare string: the
    plain-text extractor keeps it, the formatted one drops it. *)
Theorem extract_text_from_property_is_plain (ext : externals) :
  (∀ runs,
     extract_text_from_property (RichText.encode runs)
     = Ok (String.concat "" (map fst runs)))
  ∧ (∀ runs,
       Forall (λ run, run.2 = []) runs →
       extract_formatted_text ext (RichText.encode runs)
       = extract_text_from_property (RichText.encode runs))
  ∧ (∀ s,
       extract_text_from_property (VList [VStr s]) = Ok s
       ∧ extract_formatted_text ext (VList [VStr s]) = Ok "").
Proof.
  split; [apply extract_text_from_property_encode|]. split.
  - intros runs Hplain.
    rewrite extract_formatted_text_encode, extract_text_from_property_encode.
    unfold RichText.render. do 2 f_equal.
    induction Hplain as [|[text ms] runs Hms _ IH]; [done|].
    cbn [map fst snd] in *. subst ms. by rewrite IH.
  - intros s. split; [|done].
    unfold extract_text_from_property. cbn. by destruct s.
Qed.

Lemma extract_text_from_property_is_plain_witness :
  let ext := example_externals no_site in
  extract_formatted_text ext (RichText.encode [("a", []); ("b", [])])
  = extract_text_from_property (RichText.encode [("a", []); ("b", [])])
  ∧ extract_text_from_property (VList [VStr "bare"]) = Ok "bare".
Proof.
  intros ext. split.
  - apply (proj1 (proj2 (extract_text_from_property_is_plain ext))).
    repeat constructor.
  - apply (proj2 (proj2 (extract_text_from_property_is_plain ext))).
Defined.

(** X9: an entry without a ['value'] key, and a block whose type is none
    of those [process_block] has a branch for (a [table_row] met outside a
    table among them), render to no line and leave the converter as it
    was. *)
Theorem unhandled_blocks_render_nothing (ext : externals) (fuel : nat)
    (url : string) (root : value) (blocks : dict) (id : string)
    (st : converter) :
  (∀ fields, Py.lookup fields "value" = None →
     process_block ext (S fuel) url root blocks id (VDict fields) st
     = (Ok [], st))
  ∧ (∀ block_data block,
       holds_block block_data block →
       Forall (λ ty, Py.is_str (Py.field block "type" VNone) ty = false)
         handled_types →
       process_block ext (S fuel) url root blocks id block_data st
       = (Ok [], st)).
Proof.
  split.
  - intros fields Hnone. cbn [process_block Py.contains].
    unfold Py.has_key. by rewrite Hnone.
  - intros block_data block (outer & inner & -> & Hv & Hb) Hty.
    cbn [process_block Py.contains]. unfold Py.has_key. rewrite Hv.
    rewrite sbind_lift_Ok. cbn [negb Py.getitem]. rewrite Hv.
    cbn [obind Py.get]. rewrite Hb, sbind_lift_Ok. cbn [Py.get].
    rewrite !sbind_lift_Ok. unfold handled_types in Hty.
    repeat match goal with
           | H : Forall _ (_ :: _) |- _ =>
               apply Forall_cons in H as [-> H]
           end.
    reflexivity.
Qed.

Lemma unhandled_blocks_render_nothing_witness :
  let ext := example_externals no_site in
  let st := init "out" false in
  process_block ext 1 "u" (VStr "root") example_blocks "r1"
    (entry (block_of "table_row" "" ["a"; "b"])) st
  = (Ok [], st)
  ∧ process_block ext 1 "u" (VStr "root") example_blocks "x"
      (VDict [("role", VStr "reader")]) st
    = (Ok [], st).
Proof.
  intros ext st.
  destruct (unhandled_blocks_render_nothing ext 0 "u" (VStr "root")
              example_blocks "r1" st) as [_ Hunknown].
  destruct (unhandled_blocks_render_nothing ext 0 "u" (VStr "root")
              example_blocks "x" st) as [Hbare _].
  split.
  - apply (Hunknown _ (block_of "table_row" "" ["a"; "b"])
             (holds_block_entry _)).
    unfold handled_types. repeat (constructor; [reflexivity|]). constructor.
  - by apply Hbare.
Defined.

(** X10: a dangling child identifier is skipped.  Taking an identifier
    that the block table does not hold out of the content of a toggle, a
    column_list, a column or a table changes neither what the block renders
    to, nor what it raises, nor the state it leaves. *)
Theorem dangling_children_are_skipped (ext : externals) (fuel : nat)
    (url : string) (root : value) (blocks : dict) (id id' : string)
    (block_data block_data' : value) (block block' : dict) (ty : string)
    (before after : list value) (dangling : string) (st : converter) :
  holds_block block_data block →
  holds_block block_data' block' →
  ty ∈ ["toggle"; "column_list"; "column"; "table"] →
  Py.field block "type" VNone = VStr ty →
  Py.field block' "type" VNone = VStr ty →
  Py.field block "properties" (VDict [])
  = Py.field block' "properties" (VDict []) →
  Py.field block "content" (VList [])
  = VList (before ++ VStr dangling :: after) →
  Py.field block' "content" (VList []) = VList (before ++ after) →
  Py.lookup blocks dangling = None →
  process_block ext (S fuel) url root blocks id block_data st
  = process_block ext (S fuel) url root blocks id' block_data' st.
Proof.
  intros Hblock Hblock' Hin Hty Hty' Hprops Hcontent Hcontent' Hnone.
  repeat (apply elem_of_cons in Hin as [->|Hin]).
  - rewrite (process_block_toggle ext _ _ _ _ _ _ block),
            (process_block_toggle ext _ _ _ _ _ _ block') by done.
    rewrite Hprops, Hcontent, Hcontent'.
    apply sbind_ext; [done|]. intros text st'.
    apply sbind_ext; [by apply render_children_skip|done].
  - rewrite (process_block_columns ext _ _ _ _ _ _ block _ "column_list"),
            (process_block_columns ext _ _ _ _ _ _ block' _ "column_list")
      by (done || by left).
    rewrite Hcontent, Hcontent'.
    apply sbind_ext; [by apply render_children_skip|done].
  - rewrite (process_block_columns ext _ _ _ _ _ _ block _ "column"),
            (process_block_columns ext _ _ _ _ _ _ block' _ "column")
      by (done || by right).
    rewrite Hcontent, Hcontent'.
    apply sbind_ext; [by apply render_children_skip|done].
  - rewrite (process_block_table ext _ _ _ _ _ _ block),
            (process_block_table ext _ _ _ _ _ _ block') by done.
    by rewrite Hcontent, Hcontent', render_table_skip.
  - by apply elem_of_nil in Hin.
Qed.

Lemma dangling_children_are_skipped_witness :
  let ext := example_externals no_site in
  let st := init "out" false in
  process_block ext 2 "u" (VStr "root") example_blocks "g"
    (entry (block_of "toggle" "T" ["a"; "gone"; "b"])) st
  = process_block ext 2 "u" (VStr "root") example_blocks "g"
      (entry (block_of "toggle" "T" ["a"; "b"])) st.
Proof.
  intros ext st.
  apply (dangling_children_are_skipped ext 1 "u" (VStr "root") example_blocks
           "g" "g" _ _ (block_of "toggle" "T" ["a"; "gone"; "b"])
           (block_of "toggle" "T" ["a"; "b"]) "toggle"
           [VStr "a"] [VStr "b"] "gone" st
           (holds_block_entry _) (holds_block_entry _)).
  - apply list_elem_of_here.
  - reflexivity.
  - reflexivity.
  - reflexivity.
  - reflexivity.
  - reflexivity.
  - reflexivity.
Defined.

(** X11: an image block whose [source] unwraps, through any number of
    nested lists, to a string renders to one image line pointing at the
    proxy URL built from the quoted source, the block identifier and the
    [spaceId] of the root entry.  Without a [caption] property the
    alternative text of that line is the string of the empty list, "[]";
    with a caption that unwraps to a non-empty string, the caption is the
    alternative text and is repeated in italics on a second line. *)
Theorem image_with_source (ext : externals) (fuel : nat) (url : string)
    (root : value) (blocks : dict) (id : string) (block_data : value)
    (block props root_entry : dict) (source : string) (st : converter) :
  holds_block block_data block →
  Py.field block "type" VNone = VStr "image" →
  Py.field block "properties" (VDict []) = VDict props →
  unwrap (Py.field props "source" (VList [])) = VStr source →
  Py.dict_get blocks root (VDict []) = Ok (VDict root_entry) →
  let proxy :=
    "https://mask.notion.site/image/" +:+ quote ext source
    +:+ "?table=block&id=" +:+ id +:+ "&spaceId="
    +:+ py_str ext (Py.field root_entry "spaceId" (VStr ""))
    +:+ "&width=1420&userId=&cache=v2" in
  (Py.lookup props "caption" = None →
   process_block ext (S fuel) url root blocks id block_data st
   = (Ok ["![[]](" +:+ proxy +:+ ")"], st))
  ∧ (∀ caption,
       unwrap (Py.field props "caption" (VList [])) = VStr caption →
       caption ≠ "" →
       process_block ext (S fuel) url root blocks id block_data st
       = (Ok ["![" +:+ caption +:+ "](" +:+ proxy +:+ ")";
              "*" +:+ caption +:+ "*"], st)).
Proof.
  intros Hblock Hty Hprops Hsource Hroot proxy.
  rewrite (process_block_image ext _ _ _ _ _ _ block) by done.
  rewrite Hprops. unfold render_image. cbn [Py.get obind].
  rewrite Hsource, Hroot. cbn [obind Py.get py_quote Py.truthy].
  change (negb (("https://mask.notion.site/image/" +:+ ?rest) =? ""))
    with true.
  cbv iota. split.
  - intros Hcaption.
    assert (Py.field props "caption" (VList []) = VList []) as ->
      by (unfold Py.field; by rewrite Hcaption).
    reflexivity.
  - intros caption Hcaption Hne. rewrite Hcaption. cbn [py_str Py.truthy].
    apply String.eqb_neq in Hne. rewrite Hne. reflexivity.
Qed.

Lemma image_with_source_witness :
  let ext := example_externals no_site in
  let st := init "out" false in
  let blocks :=
    [("root", VDict [("spaceId", VStr "sp1");
                     ("value", VDict [("value", VDict [])])])] in
  process_block ext 1 "u" (VStr "root") blocks "img"
    (entry [("type", VStr "image");
            ("properties",
             VDict [("source", VList [VList [VStr "pic.png"]])])]) st
  = (Ok ["![[]](https://mask.notion.site/image/pic.png?table=block&id=img"
         +:+ "&spaceId=sp1&width=1420&userId=&cache=v2)"], st).
Proof.
  intros ext st blocks.
  exact (proj1 (image_with_source ext 0 "u" (VStr "root") blocks "img" _
                  [("type", VStr "image");
                   ("properties",
                    VDict [("source", VList [VList [VStr "pic.png"]])])]
                  [("source", VList [VList [VStr "pic.png"]])]
                  [("spaceId", VStr "sp1");
                   ("value", VDict [("value", VDict [])])]
                  "pic.png" st (holds_block_entry _)
                  eq_refl eq_refl eq_refl eq_refl) eq_refl).
Defined.

(** X12: inside a code block no formatting is applied.  The body of the
    fence is the text of the title runs with their markers ignored, and
    the language tag is the lower-cased text of the [language] property,
    or empty when the block has none. *)
Theorem code_block_is_unformatted (ext : externals) (fuel : nat)
    (url : string) (root : value) (blocks : dict) (id : string)
    (block_data : value) (block props : dict)
    (runs : list (string * list RichText.marker)) (st : converter) :
  holds_block block_data block →
  Py.field block "type" VNone = VStr "code" →
  Py.field block "properties" (VDict []) = VDict props →
  Py.field props "title" (VList []) = RichText.encode runs →
  let code := String.concat "" (map fst runs) in
  (Py.lookup props "language" = None →
   process_block ext (S fuel) url root blocks id block_data st
   = (Ok ["```" +:+ nl +:+ code +:+ nl +:+ "```"], st))
  ∧ (∀ language,
       Py.field props "language" (VList [])
       = RichText.encode [(language, [])] →
       language ≠ "" →
       process_block ext (S fuel) url root blocks id block_data st
       = (Ok ["```" +:+ str_lower ext language +:+ nl +:+ code +:+ nl
              +:+ "```"], st)).
Proof.
  intros Hblock Hty Hprops Htitle code. split.
  - intros Hlang. block_prologue Hblock Hty. rewrite Hprops.
    unfold lift, render_code. cbn [Py.get obind].
    rewrite Htitle, extract_text_from_property_encode. cbn [obind].
    unfold Py.field at 1. rewrite Hlang. reflexivity.
  - intros language Hlang Hne. block_prologue Hblock Hty. rewrite Hprops.
    unfold lift, render_code. cbn [Py.get obind].
    rewrite Htitle, extract_text_from_property_encode. cbn [obind].
    rewrite Hlang, extract_text_from_property_encode. cbn [obind map fst].
    assert (String.concat "" [language] = language) as -> by done.
    apply String.eqb_neq in Hne. by rewrite Hne.
Qed.

Lemma code_block_is_unformatted_witness :
  let ext := example_externals no_site in
  let st := init "out" false in
  let props :=
    [("title", RichText.encode [("x = ", [RichText.Bold]); ("1", [])]);
     ("language", RichText.encode [("Python", [])])] in
  process_block ext 1 "u" (VStr "root") [] "c"
    (entry [("type", VStr "code"); ("properties", VDict props)]) st
  = (Ok ["```Python" +:+ nl +:+ "x = 1" +:+ nl +:+ "```"], st).
Proof.
  intros ext st props.
  refine (proj2 (code_block_is_unformatted ext 0 "u" (VStr "root") [] "c" _
                   [("type", VStr "code"); ("properties", VDict props)]
                   props [("x = ", [RichText.Bold]); ("1", [])] st
                   (holds_block_entry _) eq_refl eq_refl eq_refl)
            "Python" eq_refl _).
  discriminate.
Defined.

(** ** Rendering in multi-file mode touches the registry only *)

Lemma registers_only_refl st : registers_only st st.
Proof. by split. Qed.

Lemma registers_only_trans st1 st2 st3 :
  registers_only st1 st2 → registers_only st2 st3 → registers_only st1 st3.
Proof. intros [] []. split; congruence. Qed.

Section QuietFacts.

Context (ext : externals).

Lemma quiet_sret {A} (a : A) : quiet (sret a).
Proof. intros st _. apply registers_only_refl. Qed.

Lemma quiet_lift {A} (m : outcome A) : quiet (lift m).
Proof. intros st _. apply registers_only_refl. Qed.

Lemma quiet_read {A} (f : converter → A) : quiet (read f).
Proof. intros st _. apply registers_only_refl. Qed.

Lemma quiet_register id info : quiet (update (register_page id info)).
Proof. intros st _. by split. Qed.

Lemma quiet_sbind {A B} (m : M A) (k : A → M B) :
  quiet m → (∀ a, quiet (k a)) → quiet (sbind m k).
Proof.
  intros Hm Hk st Hmode. unfold sbind. specialize (Hm st Hmode).
  destruct (m st) as [[a|e] st']; cbn [snd] in *; [|done].
  eapply registers_only_trans; [done|]. apply Hk.
  destruct Hm. congruence.
Qed.

Lemma quiet_for_each {A B} (f : A → M (list B)) items :
  (∀ x, quiet (f x)) → quiet (for_each f items).
Proof.
  intros Hf. induction items as [|x items IH]; cbn [for_each].
  - apply quiet_sret.
  - apply quiet_sbind; [done|]. intros ys.
    apply quiet_sbind; [done|]. intros zs. apply quiet_sret.
Qed.

(** In multi-file mode the test [if self.single_mode] takes the other
    branch. *)
Lemma quiet_read_mode {A} (k : bool → M A) :
  quiet (k false) → quiet (let* single := read single_mode in k single).
Proof.
  intros Hk st Hmode. unfold sbind, read. rewrite Hmode. by apply Hk.
Qed.

Local Ltac quieten IH :=
  repeat first
    [ apply quiet_sret
    | apply quiet_lift
    | apply IH
    | apply quiet_register
    | apply quiet_read_mode; cbv iota
    | apply quiet_read
    | apply quiet_sbind; [|intros ?]
    | apply quiet_for_each; intros ?
    | match goal with
      | |- quiet (if ?b then _ else _) => destruct b
      | |- quiet (match ?x with _ => _ end) => destruct x
      end ].

Lemma process_block_quiet (fuel : nat) :
  ∀ url root blocks id block_data,
    quiet (process_block ext fuel url root blocks id block_data).
Proof.
  induction fuel as [|fuel IH]; intros url root blocks id block_data.
  - apply quiet_lift.
  - cbn [process_block]. quieten IH.
Qed.

Lemma extract_page_content_quiet (fuel : nat) url data :
  quiet (extract_page_content ext fuel url data).
Proof.
  destruct fuel as [|fuel]; [apply quiet_lift|].
  cbn [extract_page_content]. pose proof (process_block_quiet fuel) as IH.
  quieten IH.
Qed.

End QuietFacts.

(** X13: in multi-file mode rendering is free of input and output.
    Whatever [process_block] and [extract_page_content] return or raise,
    they download nothing, mark no URL visited and write no file; only the
    page registry may have changed. *)
Theorem multi_file_rendering_is_quiet (ext : externals) (fuel : nat)
    (url : string) (st : converter) :
  single_mode st = false →
  (∀ root blocks id block_data,
     let st' := (process_block ext fuel url root blocks id block_data st).2 in
     downloads st' = downloads st
     ∧ visited_pages st' = visited_pages st
     ∧ files st' = files st
     ∧ single_mode st' = false)
  ∧ (∀ data,
       let st' := (extract_page_content ext fuel url data st).2 in
       downloads st' = downloads st
       ∧ visited_pages st' = visited_pages st
       ∧ files st' = files st
       ∧ single_mode st' = false).
Proof.
  intros Hmode. split.
  - intros root blocks id block_data st'.
    destruct (process_block_quiet ext fuel url root blocks id block_data st
                Hmode) as [_ Hm Hv Hd Hf].
    repeat split; try done. subst st'. congruence.
  - intros data st'.
    destruct (extract_page_content_quiet ext fuel url data st Hmode)
      as [_ Hm Hv Hd Hf].
    repeat split; try done. subst st'. congruence.
Qed.

Lemma multi_file_rendering_is_quiet_witness :
  let ext := example_externals pair_site in
  let st := init "out" false in
  let st' := (extract_page_content ext 3 url_A (pair_site url_A) st).2 in
  downloads st' = downloads st
  ∧ visited_pages st' = visited_pages st
  ∧ files st' = files st
  ∧ single_mode st' = false.
Proof.
  intros ext st.
  exact (proj2 (multi_file_rendering_is_quiet ext 3 url_A st eq_refl)
           (pair_site url_A)).
Defined.

(** ** The files a run writes *)

Section FileFacts.

Context (ext : externals).

Lemma writes_nothing_sret {A} (a : A) : writes_nothing (sret a).
Proof. by intros st. Qed.

Lemma writes_nothing_lift {A} (m : outcome A) : writes_nothing (lift m).
Proof. by intros st. Qed.

Lemma writes_nothing_read {A} (f : converter → A) : writes_nothing (read f).
Proof. by intros st. Qed.

Lemma writes_nothing_update f :
  (∀ st, files (f st) = files st) → writes_nothing (update f).
Proof. intros Hf st. apply Hf. Qed.

Lemma writes_nothing_sbind {A B} (m : M A) (k : A → M B) :
  writes_nothing m → (∀ a, writes_nothing (k a)) →
  writes_nothing (sbind m k).
Proof.
  intros Hm Hk st. unfold sbind. specialize (Hm st).
  destruct (m st) as [[a|e] st']; cbn [snd] in *; [|done].
  by rewrite Hk.
Qed.

Lemma writes_nothing_for_each {A B} (f : A → M (list B)) items :
  (∀ x, writes_nothing (f x)) → writes_nothing (for_each f items).
Proof.
  intros Hf. induction items as [|x items IH]; cbn [for_each].
  - apply writes_nothing_sret.
  - apply writes_nothing_sbind; [done|]. intros ys.
    apply writes_nothing_sbind; [done|]. intros zs.
    apply writes_nothing_sret.
Qed.

Local Ltac silent IH :=
  repeat first
    [ apply writes_nothing_sret
    | apply writes_nothing_lift
    | apply writes_nothing_read
    | apply IH
    | apply writes_nothing_update; reflexivity
    | apply writes_nothing_sbind; [|intros ?]
    | apply writes_nothing_for_each; intros ?
    | match goal with
      | |- writes_nothing (if ?b then _ else _) => destruct b
      | |- writes_nothing (match ?x with _ => _ end) => destruct x
      end ].

(** Rendering writes no file, and neither does a visit that is not asked
    to save. *)
Lemma methods_write_nothing (fuel : nat) :
  (∀ url root blocks id block_data,
     writes_nothing (process_block ext fuel url root blocks id block_data))
  ∧ (∀ url data, writes_nothing (extract_page_content ext fuel url data))
  ∧ (∀ url parent_path recursive,
       writes_nothing (process_page ext fuel url parent_path false recursive)).
Proof.
  induction fuel as [|fuel (IHblock & IHextract & IHpage)].
  { repeat split; intros; apply writes_nothing_lift. }
  split; [|split].
  - intros url root blocks id block_data. cbn [process_block].
    silent IHblock. all: try apply IHpage.
  - intros url data. cbn [extract_page_content]. silent IHblock.
  - intros url parent_path recursive. cbn [process_page].
    silent IHextract. all: try apply IHpage.
Qed.

(** A loop all of whose steps write the pages they return writes the
    pages it returns. *)
Lemma for_each_writes_its_pages {A} (f : A → M (list page_content)) items :
  (∀ x st pages st',
     f x st = (Ok pages, st') →
     ∃ written, files st' = files st ++ written
                ∧ map snd written = map file_text pages) →
  ∀ st pages st',
    for_each f items st = (Ok pages, st') →
    ∃ written, files st' = files st ++ written
               ∧ map snd written = map file_text pages.
Proof.
  intros Hf. induction items as [|x items IH]; intros st pages st' H.
  - injection H as <- <-. exists []. by rewrite app_nil_r.
  - cbn [for_each] in H. run_inv H.
    destruct (Hf _ _ _ _ Hm) as (w1 & Hw1 & Ht1).
    destruct (IH _ _ _ Hm0) as (w2 & Hw2 & Ht2).
    exists (w1 ++ w2). split; [by rewrite Hw2, Hw1, app_assoc|].
    by rewrite !map_app, Ht1, Ht2.
Qed.

(** A visit that saves and returns has written one file for each page it
    returns, in the order of the pages. *)
Lemma process_page_writes_its_pages (fuel : nat) :
  ∀ url parent_path recursive st pages st',
    process_page ext fuel url parent_path true recursive st = (Ok pages, st') →
    ∃ written, files st' = files st ++ written
               ∧ map snd written = map file_text pages.
Proof.
  induction fuel as [|fuel IH];
    intros url parent_path recursive st pages st' H; [by cbn in H|].
  cbn [process_page] in H. run_inv H.
  all: try (exists []; by rewrite app_nil_r).
  all: pose proof (methods_write_nothing fuel) as (_ & Hextract & _).
  all: match goal with
       | Hx : extract_page_content _ _ _ ?data ?s0 = _ |- _ =>
           pose proof (Hextract url data s0) as Hfiles;
           rewrite Hx in Hfiles;
           cbn [snd files log_download mark_visited] in Hfiles
       end.
  - run_inv Hm0. apply update_Ok in Hm0 as ->. run_inv Hm1.
    + eapply for_each_writes_its_pages in Hm1 as (w & Hw & Ht).
      * eexists (_ :: w). split.
        -- rewrite Hw. cbn [files log_file]. rewrite Hfiles.
           rewrite <- app_assoc. reflexivity.
        -- cbn [map snd]. by rewrite Ht.
      * intros x st1 pages1 st1' Hx. run_inv Hx.
        -- by eapply IH.
        -- exists []. by rewrite app_nil_r.
    + eexists [_]. split.
      * cbn [files log_file]. by rewrite Hfiles.
      * reflexivity.
  - exists []. by rewrite app_nil_r.
Qed.

(** A loop whose steps are visits made with [parent_path]. *)
Lemma for_each_saves {A} (f : A → M (list page_content)) items dir
    parent_path :
  (∀ x, preserves (f x)) →
  (∀ x st pages st',
     output_dir st = dir →
     f x st = (Ok pages, st') →
     ∃ written, files st' = files st ++ written
                ∧ saved ext dir parent_path pages written) →
  ∀ st pages st',
    output_dir st = dir →
    for_each f items st = (Ok pages, st') →
    ∃ written, files st' = files st ++ written
               ∧ saved_below ext dir parent_path pages written.
Proof.
  intros Hpres Hf.
  induction items as [|x items IH]; intros st pages st' Hdir H.
  - injection H as <- <-. exists []. split; [by rewrite app_nil_r|].
    constructor.
  - cbn [for_each] in H.
    apply sbind_Ok in H as (ys & st0 & Hm & H).
    apply sbind_Ok in H as (zs & st1 & Hm0 & H).
    apply sret_Ok in H as [-> ->].
    destruct (Hf _ _ _ _ Hdir Hm) as (w1 & Hw1 & Hs1).
    pose proof (evolves_output_dir _ _ (Hpres x st)) as Hdir1.
    rewrite Hm in Hdir1. cbn [snd] in Hdir1. rewrite Hdir in Hdir1.
    destruct (IH _ _ _ Hdir1 Hm0) as (w2 & Hw2 & Hs2).
    exists (w1 ++ w2). split; [by rewrite Hw2, Hw1, app_assoc|].
    by constructor.
Qed.

(** A visit that saves and returns has written its pages where [saved]
    says. *)
Lemma process_page_saves (fuel : nat) :
  ∀ url parent_path recursive st pages st',
    process_page ext fuel url parent_path true recursive st = (Ok pages, st') →
    ∃ written, files st' = files st ++ written
               ∧ saved ext (output_dir st) parent_path pages written.
Proof.
  induction fuel as [|fuel IH];
    intros url parent_path recursive st pages st' H; [by cbn in H|].
  cbn [process_page] in H. run_inv H.
  all: try (exists []; split; [by rewrite app_nil_r|constructor]).
  all: pose proof (methods_write_nothing fuel) as (_ & Hextract & _).
  all: pose proof (methods_preserve ext fuel) as (_ & Hevolves & _).
  all: match goal with
       | Hx : extract_page_content _ _ _ ?data ?s0 = _ |- _ =>
           pose proof (Hextract url data s0) as Hfiles;
           pose proof (evolves_output_dir _ _ (Hevolves url data s0)) as Hdir;
           rewrite Hx in Hfiles, Hdir;
           cbn [snd files output_dir log_download mark_visited]
             in Hfiles, Hdir
       end.
  - run_inv Hm0. apply update_Ok in Hm0 as ->. run_inv Hm1.
    + eapply (for_each_saves _ _ (output_dir st)) in Hm1 as (w & Hw & Hs).
      * eexists (_ :: w). split.
        -- rewrite Hw. cbn [files log_file]. rewrite Hfiles.
           rewrite <- app_assoc. reflexivity.
        -- rewrite Hdir. by constructor.
      * clear. intros subpage_id.
        apply preserves_sbind; [apply preserves_lift|]. intros [|].
        -- apply preserves_sbind; [apply preserves_lift|].
           intros subpage_title. apply (methods_preserve ext fuel).
        -- apply preserves_sret.
      * intros x st1 pages1 st1' Hdir1 Hx. run_inv Hx.
        -- rewrite <- Hdir1. by eapply IH.
        -- exists []. split; [by rewrite app_nil_r|constructor].
      * done.
    + eexists [_]. split.
      * cbn [files log_file]. by rewrite Hfiles.
      * rewrite Hdir. repeat constructor.
  - exists []. split; [by rewrite app_nil_r|constructor].
Qed.

End FileFacts.

(** X14: only a visit that is asked to save writes files.  Rendering a
    block, extracting a page and visiting a page with [save_content=False]
    write no file, whatever they return or raise; so the nested visits by
    which single-file mode inlines subpages write nothing. *)
Theorem rendering_writes_no_file (ext : externals) (fuel : nat)
    (url : string) (st : converter) :
  (∀ root blocks id block_data,
     files (process_block ext fuel url root blocks id block_data st).2
     = files st)
  ∧ (∀ data, files (extract_page_content ext fuel url data st).2 = files st)
  ∧ (∀ parent_path recursive,
       files (process_page ext fuel url parent_path false recursive st).2
       = files st).
Proof.
  destruct (methods_write_nothing ext fuel) as (Hblock & Hextract & Hpage).
  split; [|split].
  - intros. apply Hblock.
  - intros. apply Hextract.
  - intros. apply Hpage.
Qed.

(** X15: a visit with [save_content=True] that returns has made one write
    for each page it returns, in the order of the pages.  The page of the
    visit is written to output_dir/parent_path/name/name.md, where name is
    the sanitized title, and the pages returned by the visits of its
    subpages are written the same way with parent_path/name for
    [parent_path]; the text of each is "# ", the title of the page or
    "Untitled" when that is empty, a blank line, and the content of the
    page.  These are writes, not files: nothing keeps two of them from
    having the same path. *)
Theorem saved_pages_match_files (ext : externals) (fuel : nat)
    (url parent_path : string) (recursive : bool) (st : converter)
    (pages : list page_content) (st' : converter) :
  process_page ext fuel url parent_path true recursive st = (Ok pages, st') →
  ∃ written,
    files st' = files st ++ written
    ∧ saved ext (output_dir st) parent_path pages written
    ∧ map snd written = map file_text pages
    ∧ length written = length pages.
Proof.
  intros H.
  destruct (process_page_writes_its_pages ext fuel _ _ _ _ _ _ H)
    as (written & Hfiles & Htexts).
  destruct (process_page_saves ext fuel _ _ _ _ _ _ H)
    as (written' & Hfiles' & Hsaved).
  rewrite Hfiles in Hfiles'. apply app_inv_head in Hfiles' as <-.
  exists written. split; [done|]. split; [done|]. split; [done|].
  by rewrite <- (length_map snd written), Htexts, length_map.
Qed.

Lemma saved_pages_match_files_witness :
  let ext := example_externals pair_site in
  let run := process_page ext 9 url_A "" true true (init "out" false) in
  let pages :=
    [{| title := "A"; content := "[B](./B/B.md)"; subpages := ["b"] |};
     {| title := "B"; content := "hello"; subpages := ["b"] |}] in
  ∃ written,
    files run.2 = files (init "out" false) ++ written
    ∧ saved ext "out" "" pages written
    ∧ map snd written = map file_text pages
    ∧ length written = 2.
Proof.
  intros ext run pages.
  apply (saved_pages_match_files ext 9 url_A "" true (init "out" false)
           pages run.2).
  by vm_compute.
Defined.

(** The writes of that run: B is written below the directory of A. *)
Lemma pair_site_is_saved_in_two_files :
  files (process_page (example_externals pair_site) 9 url_A "" true true
           (init "out" false)).2
  = [("out//A/A.md", "# A" +:+ nl +:+ nl +:+ "[B](./B/B.md)");
     ("out//A/B/B.md", "# B" +:+ nl +:+ nl +:+ "hello")].
Proof. by vm_compute. Qed.

(** ** Relations that every method respects *)

Section Respect.

Context (ext : externals) (R : converter → converter → Prop).
Context (R_refl : ∀ st, R st st).
Context (R_trans : ∀ st1 st2 st3, R st1 st2 → R st2 st3 → R st1 st3).
Context (R_register : ∀ id info st, R st (register_page id info st)).
Context (R_log_file : ∀ path text st, R st (log_file path text st)).
Context (R_fetch : ∀ url st,
           url ∉ visited_pages st →
           R st (log_download url (mark_visited url st))).

Lemma respects_sret {A} (a : A) : respects R (sret a).
Proof. intros st. apply R_refl. Qed.

Lemma respects_lift {A} (m : outcome A) : respects R (lift m).
Proof. intros st. apply R_refl. Qed.

Lemma respects_read {A} (f : converter → A) : respects R (read f).
Proof. intros st. apply R_refl. Qed.

Lemma respects_sbind {A B} (m : M A) (k : A → M B) :
  respects R m → (∀ a, respects R (k a)) → respects R (sbind m k).
Proof.
  intros Hm Hk st. unfold sbind. specialize (Hm st).
  destruct (m st) as [[a|e] st']; cbn [snd] in *; [|done].
  eapply R_trans; [done|]. apply Hk.
Qed.

Lemma respects_for_each {A B} (f : A → M (list B)) items :
  (∀ x, respects R (f x)) → respects R (for_each f items).
Proof.
  intros Hf. induction items as [|x items IH]; cbn [for_each].
  - apply respects_sret.
  - apply respects_sbind; [done|]. intros ys.
    apply respects_sbind; [done|]. intros zs. apply respects_sret.
Qed.

Lemma respects_guarded_fetch {A} url (rest : list string → M (list A)) :
  (∀ earlier, respects R (rest earlier)) →
  respects R
    (let* visited := read visited_pages in
     if bool_decide (url ∈ visited) then sret []
     else
       let* _ := update (mark_visited url) in
       let* earlier := read downloads in
       let* _ := update (log_download url) in
       rest earlier).
Proof.
  intros Hrest st. unfold sbind, read, update.
  case_bool_decide as Hvisited; [apply R_refl|].
  eapply R_trans; [apply (R_fetch url st Hvisited)|]. apply Hrest.
Qed.

Local Ltac respect IH :=
  repeat first
    [ apply respects_sret
    | apply respects_lift
    | apply respects_read
    | apply IH
    | intros ?; first [ apply R_register | apply R_log_file ]
    | apply respects_sbind; [|intros ?]
    | apply respects_for_each; intros ?
    | match goal with
      | |- respects R (if ?b then _ else _) => destruct b
      | |- respects R (match ?x with _ => _ end) => destruct x
      end ].

(** A relation that is reflexive and transitive and holds across a
    registration, a file written and a guarded download holds across every
    method. *)
Lemma methods_respect (fuel : nat) :
  (∀ url root blocks id block_data,
     respects R (process_block ext fuel url root blocks id block_data))
  ∧ (∀ url data, respects R (extract_page_content ext fuel url data))
  ∧ (∀ url parent_path save_content recursive,
       respects R
         (process_page ext fuel url parent_path save_content recursive)).
Proof.
  induction fuel as [|fuel (IHblock & IHextract & IHpage)].
  { repeat split; intros; apply respects_lift. }
  split; [|split].
  - intros url root blocks id block_data. cbn [process_block].
    respect IHblock. all: try apply IHpage.
  - intros url data. cbn [extract_page_content]. respect IHblock.
  - intros url parent_path save_content recursive.
    cbn [process_page]. apply respects_guarded_fetch. intros earlier.
    respect IHextract. all: try apply IHpage.
Qed.

End Respect.

(** ** The visited set and the registry *)

Lemma marks_its_downloads_refl st : marks_its_downloads st st.
Proof. exists []. rewrite app_nil_r. split; [done|]. set_solver. Qed.

Lemma marks_its_downloads_trans st1 st2 st3 :
  marks_its_downloads st1 st2 → marks_its_downloads st2 st3 →
  marks_its_downloads st1 st3.
Proof.
  intros (new1 & Hd1 & Hv1) (new2 & Hd2 & Hv2). exists (new1 ++ new2).
  split; [by rewrite Hd2, Hd1, app_assoc|].
  rewrite Hv2, Hv1, list_to_set_app_L. set_solver.
Qed.

Lemma marks_its_downloads_fetch url st :
  marks_its_downloads st (log_download url (mark_visited url st)).
Proof. exists [url]. split; [done|]. cbn. set_solver. Qed.

Lemma dict_set_keys_eq {V} (d : list (string * V)) k v :
  map fst (dict_set d k v)
  = if bool_decide (k ∈ map fst d) then map fst d else map fst d ++ [k].
Proof.
  induction d as [|[k' v'] d IH]; cbn [dict_set map fst]; [done|].
  destruct (String.eqb_spec k' k) as [->|Hne]; cbn [map fst].
  - rewrite bool_decide_eq_true_2; [done|]. apply list_elem_of_here.
  - rewrite IH. case_bool_decide as Hin.
    + rewrite bool_decide_eq_true_2; [done|]. by apply list_elem_of_further.
    + rewrite bool_decide_eq_false_2; [done|].
      intros [?|?]%elem_of_cons; congruence.
Qed.

Lemma keeps_keys_distinct_register id info st :
  keeps_keys_distinct st (register_page id info st).
Proof.
  unfold keeps_keys_distinct. cbn [page_data register_page].
  rewrite dict_set_keys_eq. case_bool_decide as Hin; [done|].
  intros Hnodup. apply NoDup_app. split; [done|].
  split; [|apply NoDup_singleton].
  intros x Hx ->%list_elem_of_singleton. done.
Qed.

Section RegistryKeys.

Context (ext : externals).

Lemma methods_keep_keys_distinct (fuel : nat) :
  (∀ url root blocks id block_data,
     respects keeps_keys_distinct
       (process_block ext fuel url root blocks id block_data))
  ∧ (∀ url data,
       respects keeps_keys_distinct (extract_page_content ext fuel url data))
  ∧ (∀ url parent_path save_content recursive,
       respects keeps_keys_distinct
         (process_page ext fuel url parent_path save_content recursive)).
Proof.
  apply methods_respect; unfold keeps_keys_distinct; try done.
  - intros st1 st2 st3 H12 H23 H. by apply H23, H12.
  - apply keeps_keys_distinct_register.
Qed.

Lemma for_each_Forall {A B} (P : B → Prop) (Inv : converter → Prop)
    (f : A → M (list B)) items :
  (∀ x st ys st', Inv st → f x st = (Ok ys, st') → Forall P ys ∧ Inv st') →
  ∀ st ys st',
    Inv st → for_each f items st = (Ok ys, st') → Forall P ys ∧ Inv st'.
Proof.
  intros Hf. induction items as [|x items IH]; intros st ys st' Hinv H.
  - by injection H as <- <-.
  - cbn [for_each] in H. run_inv H.
    destruct (Hf _ _ _ _ Hinv Hm) as [H1 Hinv1].
    destruct (IH _ _ _ Hinv1 Hm0) as [H2 Hinv2].
    split; [by apply Forall_app|done].
Qed.

Lemma process_page_subpages_distinct (fuel : nat) :
  ∀ url parent_path save_content recursive st pages st',
    NoDup (map fst (page_data st)) →
    process_page ext fuel url parent_path save_content recursive st
    = (Ok pages, st') →
    Forall (λ page, NoDup (subpages page)) pages
    ∧ NoDup (map fst (page_data st')).
Proof.
  induction fuel as [|fuel IH];
    intros url parent_path save_content recursive st pages st' Hnodup H;
    [by cbn in H|].
  assert (NoDup (map fst (page_data st'))) as Hnodup'.
  { destruct (methods_keep_keys_distinct (S fuel)) as (_ & _ & Hpage).
    specialize (Hpage url parent_path save_content recursive st).
    rewrite H in Hpage. by apply Hpage. }
  split; [|done]. cbn [process_page] in H. run_inv H; try done.
  constructor.
  - rewrite (extract_page_content_subpages ext _ _ _ _ _ _ Hm).
    destruct (methods_keep_keys_distinct fuel) as (_ & Hextract & _).
    specialize (Hextract url (extract_json_data ext s)
                  (log_download url (mark_visited url st))).
    rewrite Hm in Hextract. by apply Hextract.
  - assert (NoDup (map fst (page_data st1))) as Hnodup1.
    { destruct (methods_keep_keys_distinct fuel) as (_ & Hextract & _).
      specialize (Hextract url (extract_json_data ext s)
                    (log_download url (mark_visited url st))).
      rewrite Hm in Hextract. specialize (Hextract Hnodup).
      destruct save_content; run_inv Hm0; [|done].
      by apply update_Ok in Hm0 as ->. }
    destruct recursive; run_inv Hm1; [|done].
    eapply (for_each_Forall _ (λ s, NoDup (map fst (page_data s))));
      [|exact Hnodup1|exact Hm1].
    intros x s0 ys s0' Hinv Hx. cbv beta in Hx.
    run_inv Hx; [by eapply IH|done].
Qed.

End RegistryKeys.

(** X16: a URL is marked visited exactly when its download is attempted.
    Across any visit the visited set grows by the URLs downloaded in it and
    by nothing else, so in a run started on a fresh converter the visited
    set is the set of the URLs downloaded. *)
Theorem visited_are_the_downloaded (ext : externals) (fuel : nat)
    (url parent_path : string) (save_content recursive : bool) :
  (∀ st,
     let st' :=
       (process_page ext fuel url parent_path save_content recursive st).2 in
     ∃ new, downloads st' = downloads st ++ new
            ∧ visited_pages st' = visited_pages st ∪ list_to_set new)
  ∧ (∀ dir single,
       let st' :=
         (process_page ext fuel url parent_path save_content recursive
            (init dir single)).2 in
       visited_pages st' = list_to_set (downloads st')).
Proof.
  assert (∀ st, marks_its_downloads st
                  (process_page ext fuel url parent_path save_content
                     recursive st).2) as Hmarks.
  { apply (methods_respect ext marks_its_downloads).
    - apply marks_its_downloads_refl.
    - apply marks_its_downloads_trans.
    - intros. exists []. rewrite app_nil_r. split; [done|]. cbn. set_solver.
    - intros. exists []. rewrite app_nil_r. split; [done|]. cbn. set_solver.
    - intros. apply marks_its_downloads_fetch. }
  split; [exact Hmarks|].
  intros dir single st'. destruct (Hmarks (init dir single)) as (new & Hd & Hv).
  fold st' in Hd, Hv. rewrite Hv, Hd. cbn. set_solver.
Qed.

(** X17: no page lists a subpage twice.  When the keys of the registry are
    distinct, as they are in a fresh converter, the [subpages] of an
    extracted page are distinct, and so are those of every page a visit
    returns. *)
Theorem subpages_are_distinct (ext : externals) (fuel : nat) (url : string)
    (st : converter) :
  NoDup (map fst (page_data st)) →
  (∀ data page st',
     extract_page_content ext fuel url data st = (Ok (Some page), st') →
     NoDup (subpages page))
  ∧ (∀ parent_path save_content recursive pages st',
       process_page ext fuel url parent_path save_content recursive st
       = (Ok pages, st') →
       Forall (λ page, NoDup (subpages page)) pages).
Proof.
  intros Hnodup. split.
  - intros data page st' H.
    rewrite (extract_page_content_subpages ext _ _ _ _ _ _ H).
    destruct (methods_keep_keys_distinct ext fuel) as (_ & Hextract & _).
    specialize (Hextract url data st). rewrite H in Hextract.
    by apply Hextract.
  - intros parent_path save_content recursive pages st' H.
    by eapply process_page_subpages_distinct.
Qed.

Lemma subpages_are_distinct_witness :
  let ext := example_externals diamond_site in
  NoDup (subpages {| title := "A";
                     content := String.concat (nl +:+ nl)
                                  ["[B](./B/B.md)"; "[C](./C/C.md)"];
                     subpages := ["b"; "c"] |}).
Proof.
  intros ext.
  refine (proj1 (subpages_are_distinct ext 3 url_A (init "out" false) _)
            (diamond_site url_A) _
            (register_page "c"
               {| info_title := "C"; info_parent_id := VStr "a" |}
               (register_page "b"
                  {| info_title := "B"; info_parent_id := VStr "a" |}
                  (init "out" false))) _).
  - constructor.
  - reflexivity.
Defined.

(** ** Locating the root, and failing to *)

Section RootFacts.

Context (ext : externals).

Lemma find_page_block_passes before rest :
  Forall (λ kv, find_page_block [kv] = Ok None) before →
  find_page_block (before ++ rest) = find_page_block rest.
Proof.
  induction 1 as [|[k block_data] before Hpass _ IH]; [done|].
  cbn [app find_page_block] in *.
  destruct (Py.contains "value" block_data) as [[|]|]; cbn [obind] in *;
    [|done|done].
  destruct (Py.getitem block_data "value") as [v|]; cbn [obind] in *; [|done].
  destruct (Py.get v "type" VNone) as [ty|]; cbn [obind] in *; [|done].
  by destruct (Py.is_str ty "page").
Qed.

Lemma has_record_map_inv data st (a : bool) st0 :
  (if negb (Py.truthy data) then sret false
   else lift (Py.contains "recordMap" data)) st = (Ok a, st0) →
  st0 = st
  ∧ (Py.truthy data = false ∧ a = false
     ∨ Py.contains "recordMap" data = Ok a).
Proof.
  destruct (Py.truthy data); cbn [negb].
  - intros [-> ->]%lift_Ok. split; [done|]. by right.
  - intros [-> ->]%sret_Ok. split; [done|]. by left.
Qed.

Lemma extract_page_content_None fuel url data st st' :
  extract_page_content ext fuel url data st = (Ok None, st') →
  st' = st
  ∧ (Py.truthy data = false
     ∨ Py.contains "recordMap" data = Ok false
     ∨ (∃ record_map,
          Py.getitem data "recordMap" = Ok record_map
          ∧ Py.contains "block" record_map = Ok false)
     ∨ (∃ record_map blocks root,
          Py.getitem data "recordMap" = Ok record_map
          ∧ Py.getitem record_map "block" = Ok (VDict blocks)
          ∧ locate_root data blocks = Ok root
          ∧ Py.truthy root = false)).
Proof.
  destruct fuel as [|fuel]; [by intros [=]|].
  cbn [extract_page_content]. intros H. run_inv H; try discriminate.
  all: try (by apply no_block_table_raises in H).
  all: repeat match goal with
              | Hn : negb _ = true |- _ => apply negb_true_iff in Hn
              | Hn : negb _ = false |- _ => apply negb_false_iff in Hn
              end.
  all: subst.
  all: apply has_record_map_inv in Hm as [-> Hmap]; split; [done|].
  - destruct Hmap as [[Hfalsy _]|Hmap]; [by left|right; by left].
  - do 2 right. left. by eexists.
  - do 3 right. by eexists _, _, _.
Qed.

End RootFacts.

(** X18: the root is the block that [pageId] names when the table holds
    it, whatever else the table holds.  When [pageId] is missing, empty or
    names no entry, the root is the first entry in the order of the table
    whose ['value'] has the type ['page'], the entries before it being
    passed over. *)
Theorem locate_root_prefers_page_id (fields blocks : dict) :
  (∀ id block_data,
     Py.field fields "pageId" VNone = VStr id →
     id ≠ "" →
     Py.lookup blocks id = Some block_data →
     locate_root (VDict fields) blocks = Ok (VStr id))
  ∧ (∀ before id outer inner after,
       Py.truthy (Py.field fields "pageId" VNone) = false
       ∨ (∃ gone, Py.field fields "pageId" VNone = VStr gone
                  ∧ Py.lookup blocks gone = None) →
       blocks = before ++ (id, VDict outer) :: after →
       Forall (λ kv, find_page_block [kv] = Ok None) before →
       Py.lookup outer "value" = Some (VDict inner) →
       Py.field inner "type" VNone = VStr "page" →
       locate_root (VDict fields) blocks = Ok (VStr id)).
Proof.
  split.
  - intros id block_data Hid Hne Hfound. unfold locate_root.
    cbn [Py.get obind]. rewrite Hid. cbn [Py.truthy].
    apply String.eqb_neq in Hne. rewrite Hne. cbn [negb find_block].
    by rewrite Hfound.
  - intros before id outer inner after Hpage -> Hbefore Hvalue Htype.
    assert (find_page_block (before ++ (id, VDict outer) :: after)
            = Ok (Some id)) as Hscan.
    { rewrite find_page_block_passes by done.
      cbn [find_page_block Py.contains]. unfold Py.has_key.
      rewrite Hvalue. cbn [obind Py.getitem]. rewrite Hvalue.
      cbn [obind Py.get]. by rewrite Htype. }
    unfold locate_root. cbn [Py.get obind].
    destruct Hpage as [Hfalsy|(gone & Hgone & Hnone)].
    + rewrite Hfalsy. cbn [negb obind]. by rewrite Hscan.
    + rewrite Hgone. cbn [find_block]. rewrite Hnone.
      destruct (negb (Py.truthy (VStr gone))); cbn [obind];
        by rewrite Hscan.
Qed.

Lemma locate_root_prefers_page_id_witness :
  let leaf := VDict [("value", VDict [("type", VStr "text")])] in
  let home := VDict [("value", VDict [("type", VStr "page")])] in
  locate_root (VDict [("pageId", VStr "t")]) [("t", leaf); ("p", home)]
  = Ok (VStr "t")
  ∧ locate_root (VDict [("pageId", VStr "gone")]) [("t", leaf); ("p", home)]
    = Ok (VStr "p").
Proof.
  intros leaf home. split.
  - refine (proj1 (locate_root_prefers_page_id [("pageId", VStr "t")]
                     [("t", leaf); ("p", home)]) "t" leaf eq_refl _ eq_refl).
    discriminate.
  - refine (proj2 (locate_root_prefers_page_id [("pageId", VStr "gone")]
                     [("t", leaf); ("p", home)])
              [("t", leaf)] "p" [("value", VDict [("type", VStr "page")])]
              [("type", VStr "page")] [] _ eq_refl _ eq_refl eq_refl).
    + right. by exists "gone".
    + repeat constructor.
Defined.

(** X19: an extraction that fails leaves no trace.  When
    [extract_page_content] returns None the converter is as it was, no
    block having been rendered or registered, and the payload is empty, or
    has no ['recordMap'], or its record map has no ['block'], or no root
    could be located in its block table. *)
Theorem failed_extraction_changes_nothing (ext : externals) (fuel : nat)
    (url : string) (data : value) (st st' : converter) :
  extract_page_content ext fuel url data st = (Ok None, st') →
  st' = st
  ∧ (Py.truthy data = false
     ∨ Py.contains "recordMap" data = Ok false
     ∨ (∃ record_map,
          Py.getitem data "recordMap" = Ok record_map
          ∧ Py.contains "block" record_map = Ok false)
     ∨ (∃ record_map blocks root,
          Py.getitem data "recordMap" = Ok record_map
          ∧ Py.getitem record_map "block" = Ok (VDict blocks)
          ∧ locate_root data blocks = Ok root
          ∧ Py.truthy root = false)).
Proof. apply extract_page_content_None. Qed.

Lemma failed_extraction_changes_nothing_witness :
  let ext := example_externals no_site in
  let st := init "out" false in
  let data := VDict [("recordMap", VDict [("blocks", VDict [])])] in
  (Py.truthy data = false
   ∨ Py.contains "recordMap" data = Ok false
   ∨ (∃ record_map,
        Py.getitem data "recordMap" = Ok record_map
        ∧ Py.contains "block" record_map = Ok false)
   ∨ (∃ record_map blocks root,
        Py.getitem data "recordMap" = Ok record_map
        ∧ Py.getitem record_map "block" = Ok (VDict blocks)
        ∧ locate_root data blocks = Ok root
        ∧ Py.truthy root = false)).
Proof.
  intros ext st data.
  exact (proj2 (failed_extraction_changes_nothing ext 1 "u" data st st
                  eq_refl)).
Defined.

(** ** [main] *)

Section MainFacts.

Context (ext : externals).

(** A visit that saves and does not recurse writes one file at most,
    whether it returns or raises. *)
Lemma process_page_writes_one_file fuel url parent_path st :
  ∃ written,
    files (process_page ext fuel url parent_path true false st).2
    = files st ++ written
    ∧ (length written ≤ 1)%nat.
Proof.
  assert (∀ files0 : list (string * string),
            ∃ written, files0 = files0 ++ written ∧ (length written ≤ 1)%nat)
    as Hnone
    by (intros; exists []; split; [by rewrite app_nil_r|cbn; lia]).
  destruct fuel as [|fuel]; [apply Hnone|].
  cbn [process_page]. unfold sbind at 1, read at 1.
  case_bool_decide; [apply Hnone|].
  unfold sbind at 1, update at 1. unfold sbind at 1, read at 1.
  unfold sbind at 1, update at 1.
  destruct (download_page ext _ url) as [html|]; [|apply Hnone].
  destruct (String.eqb html ""); [apply Hnone|].
  destruct (negb (Py.truthy (extract_json_data ext html))); [apply Hnone|].
  unfold sbind at 1.
  pose proof (proj1 (proj2 (methods_write_nothing ext fuel)) url
                (extract_json_data ext html)
                (log_download url (mark_visited url st))) as Hfiles.
  destruct (extract_page_content ext fuel url _ _) as [[[page|]|e] st0];
    cbn [snd files log_download mark_visited] in Hfiles;
    [|rewrite <- Hfiles; apply Hnone..].
  eexists [_]. cbn. by rewrite Hfiles.
Qed.

End MainFacts.

(** X20: [main] returns 1 for a URL without scheme or host, before a
    converter exists, and 1 when the output directory cannot be made, the
    constructor raising before any page is visited.  With a valid URL and
    an output directory that can be made, it returns 1 when the visit
    raises; and for a start page that cannot be downloaded it returns 0,
    the URL visited and no file written. *)
Theorem main_exit_codes (ext : externals) (makedirs : string → bool)
    (fuel : nat) (url output : string) (single : bool) :
  (url_scheme ext url = "" ∨ url_netloc ext url = "" →
   main ext makedirs fuel url output single = (1%Z, None))
  ∧ (makedirs output = false →
     main ext makedirs fuel url output single = (1%Z, None))
  ∧ (url_scheme ext url ≠ "" →
     url_netloc ext url ≠ "" →
     makedirs output = true →
     (∀ e st,
        process_page ext fuel url "" true (negb single) (init output single)
        = (Raise e, st) →
        main ext makedirs fuel url output single = (1%Z, Some st))
     ∧ (download_page ext [] url = None →
        main ext makedirs (S fuel) url output single
        = (0%Z,
           Some (log_download url (mark_visited url (init output single)))))).
Proof.
  split; [|split].
  - intros Hbad. unfold main.
    destruct Hbad as [-> | ->]; [done|]. by rewrite orb_true_r.
  - intros Hfail. unfold main, NotionToMarkdown. rewrite Hfail.
    by destruct (_ || _).
  - intros Hscheme%String.eqb_neq Hhost%String.eqb_neq Hmade.
    unfold main, NotionToMarkdown. rewrite Hscheme, Hhost, Hmade. cbn [orb].
    split.
    + intros e st Hrun. by rewrite Hrun.
    + intros Hfail.
      by rewrite process_page_download_fails by (done || set_solver).
Qed.

Lemma main_exit_codes_witness :
  (main offline_externals (λ _, false) 1 url_A "" false = (1%Z, None))
  ∧ (main offline_externals (λ _, true) 1 url_A "out" false
     = (0%Z, Some (log_download url_A (mark_visited url_A (init "out" false))))).
Proof.
  split.
  - exact (proj1 (proj2 (main_exit_codes offline_externals (λ _, false) 1
                           url_A "" false)) eq_refl).
  - refine (proj2 (proj2 (proj2 (main_exit_codes offline_externals (λ _, true)
                                   0 url_A "out" false))
                     _ _ eq_refl) eq_refl); discriminate.
Defined.

(** X21: in single-file mode [main] writes one file at most, whatever the
    pages hold and however the run ends. *)
Theorem main_single_writes_one_file (ext : externals)
    (makedirs : string → bool) (fuel : nat) (url output : string) (code : Z)
    (st : converter) :
  main ext makedirs fuel url output true = (code, Some st) →
  (length (files st) ≤ 1)%nat.
Proof.
  unfold main, NotionToMarkdown. destruct (_ || _); [done|].
  destruct (makedirs output); [|done].
  pose proof (process_page_writes_one_file ext fuel url "" (init output true))
    as Hone.
  cbn [negb]. destruct (process_page _ _ _ _ _ _ _) as [result st0].
  intros [= _ <-]. cbn [snd files init] in Hone.
  destruct Hone as (written & -> & Hlen). by rewrite app_nil_l.
Qed.

Lemma main_single_writes_one_file_witness :
  let ext := example_externals chain_site in
  let st := (process_page ext 12 url_A "" true false (init "out" true)).2 in
  (length (files st) ≤ 1)%nat.
Proof.
  intros ext st.
  apply (main_single_writes_one_file ext (λ _, true) 12 url_A "out" 0%Z st).
  by vm_compute.
Defined.

(** ** [_process_column_list] and the column branch of [process_block] *)

Section ColumnFacts.

Context (ext : externals).
Implicit Types (fuel : nat) (url : string) (root : value) (blocks : dict).

Lemma for_each_pure {A B} (f : A → M (list B)) (g : A → outcome (list B))
    items :
  Forall (λ x, ∀ st, f x st = (g x, st)) items →
  ∀ st, for_each f items st = (collect g items, st).
Proof.
  induction 1 as [|x items Hx _ IH]; intros st; [done|].
  cbn [for_each collect]. unfold sbind at 1. rewrite Hx.
  destruct (g x) as [ys|e]; [|done]. cbn [obind].
  unfold sbind at 1. rewrite IH. by destruct (collect g items).
Qed.

Lemma inner_value_holds block_data block :
  holds_block block_data block → inner_value block_data = Ok (VDict block).
Proof.
  intros (outer & inner & -> & Hv & Hb). unfold inner_value.
  cbn [Py.get obind]. unfold Py.field at 1. rewrite Hv. cbn [Py.get].
  by rewrite Hb.
Qed.

(** On an item of those kinds the renderer does what [column_item]
    does, and touches nothing. *)
Lemma child_is_column_item fuel url root blocks item_id st :
  simple_item blocks item_id →
  (let* found := lift (find_block blocks item_id) in
   match found with
   | Some (id, child_data) =>
       process_block ext (S fuel) url root blocks id child_data
   | None => sret []
   end) st
  = (column_item ext blocks item_id, st).
Proof.
  intros Hsimple. unfold column_item, sbind at 1, lift at 1.
  destruct (find_block blocks item_id) as [[[id item_data]|]|e] eqn:Hfound;
    [|done..].
  destruct (Hsimple _ _ Hfound) as (item_block & ty & Hblock & Hty & Hin).
  cbn [obind]. rewrite (inner_value_holds _ _ Hblock). cbn [obind Py.get].
  rewrite Hty.
  repeat (apply elem_of_cons in Hin as [->|Hin]);
    [..|by apply elem_of_nil in Hin].
  all: block_prologue Hblock Hty.
  all: cbn [Py.is_str String.eqb Ascii.eqb Bool.eqb].
  all: unfold sbind, lift; by destruct (formatted_title _ _).
Qed.

Lemma child_is_column_text fuel url root blocks column_id st :
  simple_column blocks column_id →
  (let* found := lift (find_block blocks column_id) in
   match found with
   | Some (id, child_data) =>
       process_block ext (S (S fuel)) url root blocks id child_data
   | None => sret []
   end) st
  = (column_text ext blocks column_id, st).
Proof.
  intros Hsimple. unfold column_text, sbind at 1, lift at 1.
  destruct (find_block blocks column_id) as [[[id column_data]|]|e]
    eqn:Hfound; [|done..].
  destruct (Hsimple _ _ Hfound)
    as (column_block & item_ids & Hblock & Hty & Hcontent & Hitems).
  cbn [obind]. rewrite (inner_value_holds _ _ Hblock). cbn [obind Py.get].
  rewrite Hty, Hcontent. cbn [Py.is_str String.eqb Ascii.eqb Bool.eqb].
  cbn [Py.iter obind].
  rewrite (process_block_columns ext _ _ _ _ _ _ column_block _ "column")
    by (done || by right).
  rewrite Hcontent. unfold render_children. cbn [Py.iter].
  rewrite sbind_lift_Ok. unfold sbind at 1.
  rewrite (for_each_pure _ (column_item ext blocks)).
  - by destruct (collect (column_item ext blocks) item_ids) as [[|]|].
  - eapply Forall_impl; [exact Hitems|]. intros item_id Hitem st'.
    by apply child_is_column_item.
Qed.

End ColumnFacts.

(** X22: on the column lists it is written for, [_process_column_list]
    agrees with the column branch of [process_block].  When every child
    that resolves is a column whose items that resolve are text,
    bulleted_list or numbered_list blocks, both compute the same texts of
    the columns, or raise the same exception; [process_block] gives their
    join as its one line, or no line when no column has an item, and
    leaves the converter as it was, and [_process_column_list] returns the
    join. *)
Theorem column_list_agrees_with_process_block (ext : externals) (fuel : nat)
    (url : string) (root : value) (blocks : dict) (id : string)
    (block_data : value) (block : dict) (column_ids : list value)
    (st : converter) :
  holds_block block_data block →
  Py.field block "type" VNone = VStr "column_list" →
  Py.field block "content" (VList []) = VList column_ids →
  Forall (simple_column blocks) column_ids →
  let columns := collect (column_text ext blocks) column_ids in
  process_block ext (S (S (S fuel))) url root blocks id block_data st
  = (omap (λ texts, match texts with
                    | [] => []
                    | _ :: _ => [String.concat (nl +:+ nl) texts]
                    end) columns, st)
  ∧ _process_column_list ext (VList column_ids) blocks
    = omap (String.concat (nl +:+ nl)) columns.
Proof.
  intros Hblock Hty Hcontent Hcolumns columns. split; [|done].
  rewrite (process_block_columns ext _ _ _ _ _ _ block _ "column_list")
    by (done || by left).
  rewrite Hcontent. unfold render_children. cbn [Py.iter].
  rewrite sbind_lift_Ok. unfold sbind at 1.
  rewrite (for_each_pure _ (column_text ext blocks)).
  - subst columns.
    by destruct (collect (column_text ext blocks) column_ids) as [[|]|].
  - eapply Forall_impl; [exact Hcolumns|]. intros column_id Hcolumn st'.
    by apply child_is_column_text.
Qed.

Lemma column_list_agrees_with_process_block_witness :
  let ext := example_externals no_site in
  let st := init "out" false in
  let blocks :=
    [("c1", entry (block_of "column" "" ["t1"; "gone"]));
     ("c2", entry (block_of "column" "" ["n1"]));
     ("t1", entry (block_of "text" "left" []));
     ("n1", entry (block_of "numbered_list" "right" []))] in
  process_block ext 3 "u" (VStr "root") blocks "cl"
    (entry (block_of "column_list" "" ["c1"; "c2"])) st
  = (Ok ["left" +:+ nl +:+ nl +:+ "1. right"], st)
  ∧ _process_column_list ext (VList [VStr "c1"; VStr "c2"]) blocks
    = Ok ("left" +:+ nl +:+ nl +:+ "1. right").
Proof.
  intros ext st blocks.
  refine (column_list_agrees_with_process_block ext 0 "u" (VStr "root") blocks
            "cl" _ (block_of "column_list" "" ["c1"; "c2"])
            [VStr "c1"; VStr "c2"] st (holds_block_entry _)
            eq_refl eq_refl _).
  assert (∀ ty text, ty ∈ ["text"; "bulleted_list"; "numbered_list"] →
            ∃ item_block ty',
              holds_block (entry (block_of ty text [])) item_block
              ∧ Py.field item_block "type" VNone = VStr ty'
              ∧ ty' ∈ ["text"; "bulleted_list"; "numbered_list"]) as Hitem.
  { intros ty text Hty. eexists _, ty.
    split; [apply holds_block_entry|]. by split. }
  repeat constructor.
  - intros id column_data [= <- <-]. eexists _, _.
    split; [apply holds_block_entry|]. do 2 (split; [reflexivity|]).
    repeat constructor.
    + intros id item_data [= <- <-]. apply Hitem, list_elem_of_here.
    + intros id item_data [=].
  - intros id column_data [= <- <-]. eexists _, _.
    split; [apply holds_block_entry|]. do 2 (split; [reflexivity|]).
    repeat constructor.
    intros id item_data [= <- <-]. apply Hitem. set_solver.
Defined.

(** ** A recursive visit reaches what it lists *)

Section ReachFacts.

Context (ext : externals).

Lemma process_page_reaches fuel url parent_path save_content st page below
    st' :
  process_page ext fuel url parent_path save_content true st
  = (Ok (page :: below), st') →
  ∃ html record_map block_table,
    download_page ext (downloads st) url = Some html
    ∧ Py.getitem (extract_json_data ext html) "recordMap" = Ok record_map
    ∧ Py.getitem record_map "block" = Ok block_table
    ∧ ∀ subpage_id,
        subpage_id ∈ subpages page →
        Py.contains subpage_id block_table = Ok true →
        ∃ subpage_title,
          listed_subpage_title block_table subpage_id = Ok subpage_title
          ∧ subpage_url_of ext url subpage_title subpage_id
            ∈ visited_pages st'.
Proof.
  destruct fuel as [|fuel]; [by intros [=]|].
  cbn [process_page]. intros H. run_inv H; try discriminate.
  injection H as <- <-. run_inv Hm1.
  exists s, a1, a3. repeat split; try done.
  intros subpage_id Hlisted Hpresent.
  eapply for_each_reaches in Hm1 as (s1 & r & s2 & Hturn & Hlater);
    [|clear; intros subpage_id|exact Hlisted].
  - cbv beta in Hturn.
    apply sbind_Ok in Hturn as (present & s1' & Hp & Hturn).
    apply lift_Ok in Hp as [Hp ->]. rewrite Hpresent in Hp.
    injection Hp as <-.
    apply sbind_Ok in Hturn as (subpage_title & s1' & Ht & Hturn).
    apply lift_Ok in Ht as [Ht ->].
    exists subpage_title. split; [done|].
    apply (evolves_visited _ _ Hlater).
    destruct fuel as [|fuel]; [done|].
    pose proof (process_page_marks ext fuel
                  (subpage_url_of ext url subpage_title subpage_id)
                  (path_join ext parent_path
                     (slugify ext
                        (if title page =? "" then "Untitled"
                         else title page)))
                  save_content true s1) as Hmarked.
    by rewrite Hturn in Hmarked.
  - apply preserves_sbind; [apply preserves_lift|]. intros [|].
    + apply preserves_sbind; [apply preserves_lift|]. intros subpage_title.
      apply (methods_preserve ext fuel).
    + apply preserves_sret.
Qed.

End ReachFacts.

(** X23: a recursive visit reaches every subpage it lists.  When
    [process_page] with [recursive=True] returns the page of its URL, the
    page was downloaded and its payload has a block table; and for every
    identifier among the [subpages] of the page that is a key of that
    table, the title of the subpage could be read and the URL made of
    the title and the identifier is visited when the call returns. *)
Theorem recursive_visit_reaches_listed_subpages (ext : externals)
    (fuel : nat) (url parent_path : string) (save_content : bool)
    (st : converter) (page : page_content) (below : list page_content)
    (st' : converter) :
  process_page ext fuel url parent_path save_content true st
  = (Ok (page :: below), st') →
  ∃ html record_map block_table,
    download_page ext (downloads st) url = Some html
    ∧ Py.getitem (extract_json_data ext html) "recordMap" = Ok record_map
    ∧ Py.getitem record_map "block" = Ok block_table
    ∧ ∀ subpage_id,
        subpage_id ∈ subpages page →
        Py.contains subpage_id block_table = Ok true →
        ∃ subpage_title,
          listed_subpage_title block_table subpage_id = Ok subpage_title
          ∧ subpage_url_of ext url subpage_title subpage_id
            ∈ visited_pages st'.
Proof. apply process_page_reaches. Qed.

Lemma recursive_visit_reaches_listed_subpages_witness :
  let ext := example_externals chain_site in
  let st := init "out" false in
  let page := {| title := "A"; content := "[B](./B/B.md)";
                 subpages := ["b"] |} in
  ∃ html record_map block_table,
    download_page ext (downloads st) url_A = Some html
    ∧ Py.getitem (extract_json_data ext html) "recordMap" = Ok record_map
    ∧ Py.getitem record_map "block" = Ok block_table
    ∧ ∀ subpage_id,
        subpage_id ∈ subpages page →
        Py.contains subpage_id block_table = Ok true →
        ∃ subpage_title,
          listed_subpage_title block_table subpage_id = Ok subpage_title
          ∧ subpage_url_of ext url_A subpage_title subpage_id
            ∈ visited_pages
                (process_page ext 12 url_A "" true true st).2.
Proof.
  intros ext st page.
  apply (recursive_visit_reaches_listed_subpages ext 12 url_A "" true st
           page
           [{| title := "B"; content := "[C](./C/C.md)";
               subpages := ["b"; "c"] |};
            {| title := "C"; content := "leaf"; subpages := ["b"; "c"] |}]).
  by vm_compute.
Defined.
